(** * AdGuardHome: the persistent configuration (config.go)

    A shallow embedding of [config.go]: the configuration structures with
    their yaml tags, the built-in defaults, and the procedures that load and
    persist the configuration ([getConfigFilename], [readConfigFile],
    [getLogSettings], [parseConfig], [write], [writeAllConfigs]).

    Layout of the development:
    - [yaml]: the part of gopkg.in/yaml.v2 that the code relies on, on
      document trees: how a Go value of a tagged struct type is turned into
      a mapping and how a mapping is decoded into an existing value;
    - the structures of config.go, each with its table of yaml fields;
    - the process state (the global [config], the files, the log) and the
      procedures, written in a state monad;
    - the theorems.

    Not modelled: the [sync.RWMutex] embedded in [configuration] (the
    procedures are run one at a time), floating point and timestamp
    scalars, anchors, aliases and merge keys of YAML. *)

From Stdlib Require Import ZArith Lia Ascii.
From stdpp Require Import base strings list gmap pretty.

Local Open Scope Z_scope.

(** ** Document trees and the struct decoder of yaml.v2 *)

Module yaml.

(** What [resolve] makes of a scalar: plain [null], [~] or nothing is null,
    plain [true]/[false] (and their YAML 1.1 spellings) a boolean, a plain
    number an integer; anything else, and every quoted scalar, a string. *)
Inductive resolved :=
| RNull
| RBool (b : bool)
| RInt (z : Z)
| RStr.

(** A parsed document. A scalar keeps its text beside what it resolves to,
    since a string target receives the text whatever the scalar resolves to.
    Mapping keys are kept as their text. *)
#[warnings="-register-all"]
Inductive node :=
| NScalar (r : resolved) (text : string)
| NSeq (items : list node)
| NMap (entries : list (string * node)).

Definition tag_of (r : resolved) : string :=
  match r with
  | RNull => "!!null"
  | RBool _ => "!!bool"
  | RInt _ => "!!int"
  | RStr => "!!str"
  end.

Definition node_tag (n : node) : string :=
  match n with
  | NScalar r _ => tag_of r
  | NSeq _ => "!!seq"
  | NMap _ => "!!map"
  end.

(** One entry of a [*yaml.TypeError]: cannot unmarshal [te_tag] into
    [te_into]. *)
Record terror := TError { te_tag : string; te_into : string }.

(** The outcome of [d.unmarshal(n, out)]: the value now held by [out], the
    flag the call returns, and the type errors it appended to [d.terrors]. *)
Record decoded (A : Type) := Decoded {
  d_value : A;
  d_good : bool;
  d_terrors : list terror
}.
Arguments Decoded {A} _ _ _.
Arguments d_value {A} _.
Arguments d_good {A} _.
Arguments d_terrors {A} _.

Definition good {A} (v : A) : decoded A := Decoded v true [].

(** [d.terror(n, tag, out)] followed by [return false]: [out] is not
    touched. *)
Definition mismatch {A} (n : node) (into : string) (out : A) : decoded A :=
  Decoded out false [TError (node_tag n) into].

(** How values of a Go type travel: its zero value, its name in error
    messages, the node [Marshal] makes of a value, and [decode], what
    [d.unmarshal] does with a node that is not null. *)
Record codec (A : Type) := Codec {
  zero : A;
  go_type : string;
  encode : A → node;
  decode : node → A → decoded A
}.
Arguments Codec {A} _ _ _ _.
Arguments zero {A} _.
Arguments go_type {A} _.
Arguments encode {A} _ _.
Arguments decode {A} _ _ _.

(** [d.unmarshal]: a null scalar resets the target to its zero value and
    counts as decoded ([d.scalar], [resolved == nil]); any other node goes
    to the decoder of the target's kind. *)
Definition unmarshal {A} (c : codec A) (n : node) (out : A) : decoded A :=
  match n with
  | NScalar RNull _ => good (zero c)
  | _ => decode c n out
  end.

(** Go's [int] and [int64] on a 64-bit platform. *)
Definition int_min : Z := - 2 ^ 63.
Definition int_max : Z := 2 ^ 63 - 1.
Definition is_int (z : Z) : Prop := int_min ≤ z ≤ int_max.
Definition is_intb (z : Z) : bool := (int_min <=? z) && (z <=? int_max).

(** A string target takes the text of any scalar that is not null. *)
Definition string_codec : codec string :=
  Codec "" "string"
    (λ s, NScalar RStr s)
    (λ n out, match n with
              | NScalar _ text => good text
              | _ => mismatch n "string" out
              end).

(** An integer target takes an integer scalar that does not overflow it. *)
Definition int_codec : codec Z :=
  Codec 0 "int"
    (λ z, NScalar (RInt z) (pretty z))
    (λ n out, match n with
              | NScalar (RInt z) _ =>
                  if is_intb z then good z else mismatch n "int" out
              | _ => mismatch n "int" out
              end).

Definition bool_text (b : bool) : string := if b then "true" else "false".

Definition bool_codec : codec bool :=
  Codec false "bool"
    (λ b, NScalar (RBool b) (bool_text b))
    (λ n out, match n with
              | NScalar (RBool b) _ => good b
              | _ => mismatch n "bool" out
              end).

(** [d.sequence] on a slice: a fresh slice replaces the old one; every item
    is decoded into a zero element and kept when its decoding is good. *)
Fixpoint decode_items {A} (c : codec A) (items : list node)
  : list A * list terror :=
  match items with
  | [] => ([], [])
  | n :: rest =>
      let r := unmarshal c n (zero c) in
      let '(vs, es) := decode_items c rest in
      ((if d_good r then d_value r :: vs else vs), d_terrors r ++ es)
  end.

Definition slice_codec {A} (c : codec A) : codec (list A) :=
  Codec [] ("[]" +:+ go_type c)
    (λ l, NSeq (map (encode c) l))
    (λ n out, match n with
              | NSeq items =>
                  let '(vs, es) := decode_items c items in Decoded vs true es
              | _ => mismatch n ("[]" +:+ go_type c) out
              end).

(** One entry of the field list that [getStructInfo] computes for a struct
    type [S]: the key, and how the field is read for encoding and written
    when decoding. *)
Record field (S : Type) := Field {
  f_key : string;
  f_encode : S → node;
  f_decode : node → S → S * list terror
}.
Arguments Field {S} _ _ _.
Arguments f_key {S} _.
Arguments f_encode {S} _ _.
Arguments f_decode {S} _ _ _.

(** An exported field tagged [yaml:"key"], of a type with codec [c]. *)
Definition fld {S A} (key : string) (get : S → A) (set : A → S → S)
    (c : codec A) : field S :=
  Field key
    (λ s, encode c (get s))
    (λ n s, let r := unmarshal c n (get s) in (set (d_value r) s, d_terrors r)).

(** An embedded struct tagged [yaml:",inline"]: its fields are spliced into
    the list of the enclosing struct, at the place of the embedding. *)
Definition inline {S T} (get : S → T) (set : T → S → S)
    (fs : list (field T)) : list (field S) :=
  map (λ f, Field (f_key f)
              (λ s, f_encode f (get s))
              (λ n s, let '(t, es) := f_decode f n (get s) in (set t s, es)))
      fs.

Definition keys {S} (fs : list (field S)) : list string := map f_key fs.

Definition lookup_field {S} (fs : list (field S)) (k : string)
  : option (field S) :=
  find (λ f, String.eqb (f_key f) k) fs.

(** [d.mappingStruct]: the entries are taken in document order; a key with
    no field is skipped (the decoder is not strict), the value of a known
    key is unmarshalled into its field whether the call is good or not. *)
Fixpoint mappingStruct {S} (fs : list (field S))
    (entries : list (string * node)) (out : S) : S * list terror :=
  match entries with
  | [] => (out, [])
  | (k, v) :: rest =>
      match lookup_field fs k with
      | Some f =>
          let '(out1, es1) := f_decode f v out in
          let '(out2, es2) := mappingStruct fs rest out1 in
          (out2, es1 ++ es2)
      | None => mappingStruct fs rest out
      end
  end.

(** The encoder's [structv]: one entry per field, in the order of the list. *)
Definition marshal_struct {S} (fs : list (field S)) (s : S) : node :=
  NMap (map (λ f, (f_key f, f_encode f s)) fs).

Definition struct_codec {S} (name : string) (z : S) (fs : list (field S))
  : codec S :=
  Codec z name
    (marshal_struct fs)
    (λ n out, match n with
              | NMap entries =>
                  let '(s, es) := mappingStruct fs entries out in
                  Decoded s true es
              | _ => mismatch n name out
              end).

Definition mapping_keys (n : node) : list string :=
  match n with
  | NMap entries => map fst entries
  | _ => []
  end.

Definition mapping_get (n : node) (k : string) : option node :=
  match n with
  | NMap entries => snd <$> find (λ e, String.eqb (fst e) k) entries
  | _ => None
  end.

End yaml.

Import yaml.

(** ** The structures of config.go

    Each struct is a record; its table of fields lists, in declaration
    order, the fields that yaml.v2 sees with the key of their tag. Fields
    that are unexported or tagged [yaml:"-"] are not in the table. *)

Record logSettings := {
  LogFile : string;
  Verbose : bool
}.

Definition set_LogFile (v : string) (l : logSettings) : logSettings :=
  {| LogFile := v; Verbose := Verbose l |}.
Definition set_Verbose (v : bool) (l : logSettings) : logSettings :=
  {| LogFile := LogFile l; Verbose := v |}.

Definition logSettings_fields : list (field logSettings) :=
  [ fld "log_file" LogFile set_LogFile string_codec;
    fld "verbose" Verbose set_Verbose bool_codec ].

Definition logSettings_zero : logSettings :=
  {| LogFile := ""; Verbose := false |}.

Definition logSettings_codec : codec logSettings :=
  struct_codec "main.logSettings" logSettings_zero logSettings_fields.

(** Modelled from the spec: [dnsforward.FilteringConfig] is declared in
    another package of the repository. Its fields are those named by the
    default value in config.go, keyed and ordered as the persisted format
    lists them (protection-enabled, filtering-enabled,
    blocked-response-ttl, query-log-enabled, ratelimit, refuse-any,
    bootstrap-dns). *)
Record dnsforward_FilteringConfig := {
  ProtectionEnabled : bool;
  FilteringEnabled : bool;
  BlockedResponseTTL : Z;
  QueryLogEnabled : bool;
  Ratelimit : Z;
  RefuseAny : bool;
  BootstrapDNS : string
}.

Definition set_ProtectionEnabled v (f : dnsforward_FilteringConfig) :=
  let '(Build_dnsforward_FilteringConfig _ b c d e g h) := f in
  Build_dnsforward_FilteringConfig v b c d e g h.
Definition set_FilteringEnabled v (f : dnsforward_FilteringConfig) :=
  let '(Build_dnsforward_FilteringConfig a _ c d e g h) := f in
  Build_dnsforward_FilteringConfig a v c d e g h.
Definition set_BlockedResponseTTL v (f : dnsforward_FilteringConfig) :=
  let '(Build_dnsforward_FilteringConfig a b _ d e g h) := f in
  Build_dnsforward_FilteringConfig a b v d e g h.
Definition set_QueryLogEnabled v (f : dnsforward_FilteringConfig) :=
  let '(Build_dnsforward_FilteringConfig a b c _ e g h) := f in
  Build_dnsforward_FilteringConfig a b c v e g h.
Definition set_Ratelimit v (f : dnsforward_FilteringConfig) :=
  let '(Build_dnsforward_FilteringConfig a b c d _ g h) := f in
  Build_dnsforward_FilteringConfig a b c d v g h.
Definition set_RefuseAny v (f : dnsforward_FilteringConfig) :=
  let '(Build_dnsforward_FilteringConfig a b c d e _ h) := f in
  Build_dnsforward_FilteringConfig a b c d e v h.
Definition set_BootstrapDNS v (f : dnsforward_FilteringConfig) :=
  let '(Build_dnsforward_FilteringConfig a b c d e g _) := f in
  Build_dnsforward_FilteringConfig a b c d e g v.

Definition FilteringConfig_fields : list (field dnsforward_FilteringConfig) :=
  [ fld "protection_enabled" ProtectionEnabled set_ProtectionEnabled bool_codec;
    fld "filtering_enabled" FilteringEnabled set_FilteringEnabled bool_codec;
    fld "blocked_response_ttl" BlockedResponseTTL set_BlockedResponseTTL int_codec;
    fld "query_log_enabled" QueryLogEnabled set_QueryLogEnabled bool_codec;
    fld "ratelimit" Ratelimit set_Ratelimit int_codec;
    fld "refuse_any" RefuseAny set_RefuseAny bool_codec;
    fld "bootstrap_dns" BootstrapDNS set_BootstrapDNS string_codec ].

Definition FilteringConfig_zero : dnsforward_FilteringConfig :=
  Build_dnsforward_FilteringConfig false false 0 false 0 false "".

Record dnsConfig := {
  dns_BindHost : string;
  dns_Port : Z;
  FilteringConfig : dnsforward_FilteringConfig;
  UpstreamDNS : list string
}.

Definition set_dns_BindHost v (d : dnsConfig) :=
  let '(Build_dnsConfig _ b c e) := d in Build_dnsConfig v b c e.
Definition set_dns_Port v (d : dnsConfig) :=
  let '(Build_dnsConfig a _ c e) := d in Build_dnsConfig a v c e.
Definition set_FilteringConfig v (d : dnsConfig) :=
  let '(Build_dnsConfig a b _ e) := d in Build_dnsConfig a b v e.
Definition set_UpstreamDNS v (d : dnsConfig) :=
  let '(Build_dnsConfig a b c _) := d in Build_dnsConfig a b c v.

Definition dnsConfig_fields : list (field dnsConfig) :=
  [ fld "bind_host" dns_BindHost set_dns_BindHost string_codec;
    fld "port" dns_Port set_dns_Port int_codec ]
  ++ inline FilteringConfig set_FilteringConfig FilteringConfig_fields
  ++ [ fld "upstream_dns" UpstreamDNS set_UpstreamDNS (slice_codec string_codec) ].

Definition dnsConfig_zero : dnsConfig :=
  Build_dnsConfig "" 0 FilteringConfig_zero [].

Definition dnsConfig_codec : codec dnsConfig :=
  struct_codec "main.dnsConfig" dnsConfig_zero dnsConfig_fields.

Definition defaultDNS : list string := ["tls://1.1.1.1"; "tls://1.0.0.1"].

(** Modelled from the spec: [dnsforward.TLSConfig] is declared in another
    package of the repository; the persisted format says it contributes
    the certificate and key fields. *)
Record dnsforward_TLSConfig := {
  CertificateChain : string;
  PrivateKey : string
}.

Definition set_CertificateChain v (t : dnsforward_TLSConfig) :=
  {| CertificateChain := v; PrivateKey := PrivateKey t |}.
Definition set_PrivateKey v (t : dnsforward_TLSConfig) :=
  {| CertificateChain := CertificateChain t; PrivateKey := v |}.

Definition TLSConfig_fields : list (field dnsforward_TLSConfig) :=
  [ fld "certificate_chain" CertificateChain set_CertificateChain string_codec;
    fld "private_key" PrivateKey set_PrivateKey string_codec ].

Definition TLSConfig_zero : dnsforward_TLSConfig :=
  {| CertificateChain := ""; PrivateKey := "" |}.

Record tlsConfigSettings := {
  Enabled : bool;
  ServerName : string;
  ForceHTTPS : bool;
  PortHTTPS : Z;
  PortDNSOverTLS : Z;
  TLSConfig : dnsforward_TLSConfig
}.

Definition set_Enabled v (t : tlsConfigSettings) :=
  let '(Build_tlsConfigSettings _ b c d e g) := t in
  Build_tlsConfigSettings v b c d e g.
Definition set_ServerName v (t : tlsConfigSettings) :=
  let '(Build_tlsConfigSettings a _ c d e g) := t in
  Build_tlsConfigSettings a v c d e g.
Definition set_ForceHTTPS v (t : tlsConfigSettings) :=
  let '(Build_tlsConfigSettings a b _ d e g) := t in
  Build_tlsConfigSettings a b v d e g.
Definition set_PortHTTPS v (t : tlsConfigSettings) :=
  let '(Build_tlsConfigSettings a b c _ e g) := t in
  Build_tlsConfigSettings a b c v e g.
Definition set_PortDNSOverTLS v (t : tlsConfigSettings) :=
  let '(Build_tlsConfigSettings a b c d _ g) := t in
  Build_tlsConfigSettings a b c d v g.
Definition set_TLSConfig v (t : tlsConfigSettings) :=
  let '(Build_tlsConfigSettings a b c d e _) := t in
  Build_tlsConfigSettings a b c d e v.

(** The yaml tag of [Enabled] reads [enaled] in the source (its json tag
    reads [enabled]); the table carries the yaml tag as written. *)
Definition tlsConfigSettings_fields : list (field tlsConfigSettings) :=
  [ fld "enaled" Enabled set_Enabled bool_codec;
    fld "server_name" ServerName set_ServerName string_codec;
    fld "force_https" ForceHTTPS set_ForceHTTPS bool_codec;
    fld "port_https" PortHTTPS set_PortHTTPS int_codec;
    fld "port_dns_over_tls" PortDNSOverTLS set_PortDNSOverTLS int_codec ]
  ++ inline TLSConfig set_TLSConfig TLSConfig_fields.

Definition tlsConfigSettings_zero : tlsConfigSettings :=
  Build_tlsConfigSettings false "" false 0 0 TLSConfig_zero.

(** [time.Time], as an instant counted from the zero [Time]. *)
Definition time_Time : Type := Z.

(** These fields are all tagged [yaml:"-"]: they are for the API and are
    recalculated on each run. *)
Record tlsConfigStatus := {
  ValidChain : bool;
  Subject : string;
  Issuer : string;
  NotBefore : time_Time;
  NotAfter : time_Time;
  DNSNames : list string;
  StatusCertificate : string;
  ValidKey : bool;
  KeyType : string;
  Warning : string;
  WarningValidation : string
}.

Definition tlsConfigStatus_zero : tlsConfigStatus :=
  Build_tlsConfigStatus false "" "" 0 0 [] "" false "" "" "".

Record tlsConfig := {
  tls_settings : tlsConfigSettings;
  tls_status : tlsConfigStatus
}.

Definition set_tls_settings v (t : tlsConfig) :=
  {| tls_settings := v; tls_status := tls_status t |}.
Definition set_tls_status v (t : tlsConfig) :=
  {| tls_settings := tls_settings t; tls_status := v |}.

(** [tlsConfigSettings] is inlined, [tlsConfigStatus] is tagged
    [yaml:"-"]. *)
Definition tlsConfig_fields : list (field tlsConfig) :=
  inline tls_settings set_tls_settings tlsConfigSettings_fields.

Definition tlsConfig_zero : tlsConfig :=
  {| tls_settings := tlsConfigSettings_zero; tls_status := tlsConfigStatus_zero |}.

Definition tlsConfig_codec : codec tlsConfig :=
  struct_codec "main.tlsConfig" tlsConfig_zero tlsConfig_fields.

(** Modelled from the spec: [dnsfilter.Filter] and [filter] are declared
    elsewhere in the repository. The fields are those the default value in
    config.go names; the persisted format gives the keys and their order:
    id, enabled, url, name. *)
Record dnsfilter_Filter := {
  ID : Z
}.

Record filter := {
  Filter : dnsfilter_Filter;
  filter_Enabled : bool;
  URL : string;
  Name : string
}.

Definition set_ID (v : Z) (f : dnsfilter_Filter) : dnsfilter_Filter :=
  {| ID := v |}.
Definition set_Filter v (f : filter) :=
  let '(Build_filter _ b c d) := f in Build_filter v b c d.
Definition set_filter_Enabled v (f : filter) :=
  let '(Build_filter a _ c d) := f in Build_filter a v c d.
Definition set_URL v (f : filter) :=
  let '(Build_filter a b _ d) := f in Build_filter a b v d.
Definition set_Name v (f : filter) :=
  let '(Build_filter a b c _) := f in Build_filter a b c v.

Definition filter_fields : list (field filter) :=
  inline Filter set_Filter [ fld "id" ID set_ID int_codec ]
  ++ [ fld "enabled" filter_Enabled set_filter_Enabled bool_codec;
       fld "url" URL set_URL string_codec;
       fld "name" Name set_Name string_codec ].

Definition filter_zero : filter := Build_filter {| ID := 0 |} false "" "".

Definition filter_codec : codec filter :=
  struct_codec "main.filter" filter_zero filter_fields.

(** ** The process and its collaborators *)

(** Go's [error] values, as far as the code tells them apart: the error for
    which [os.IsNotExist] holds, the [*yaml.TypeError] that [Unmarshal]
    returns after a partial decoding, and any other error with its
    message. *)
Inductive error :=
| ErrNotExist
| TypeError (errs : list terror)
| Errorf (msg : string).

(** A path of the file system holds a file that can be read, or something
    that [ioutil.ReadFile] fails on (no permission, a directory, ...). A
    path with no entry does not exist. *)
Inductive file :=
| Regular (data : list Byte.byte)
| Unreadable (msg : string).

(** What config.go calls and does not define.
    - [dhcpd.ServerConfig], with the way yaml.v2 encodes and decodes it, and
      the constant [currentSchemaVersion], are declared elsewhere in the
      repository.
    - [yaml_parse] is the parser of yaml.v2 ([p.parse()] in [unmarshal]): a
      syntax error, the empty document, or the tree of the first document.
      [yaml_emit] is its emitter.
    - [filepath.IsAbs] and [filepath.Join] of the Go library.
    - [safeWriteFile] (the atomic write) and [save] of the user filter are
      defined elsewhere in the repository; they act on the files. *)
Class Collaborators := {
  dhcpd_ServerConfig : Type;
  ServerConfig_codec : codec dhcpd_ServerConfig;
  currentSchemaVersion : Z;
  yaml_parse : list Byte.byte → error + option node;
  yaml_emit : node → error + list Byte.byte;
  filepath_IsAbs : string → bool;
  filepath_Join : string → string → string;
  safeWriteFile_files :
    string → list Byte.byte → gmap string file → gmap string file * option error;
  userFilter_save_files :
    list string → gmap string file → gmap string file * option error
}.

Section Config.

Context `{Collaborators}.

(** [yaml.Unmarshal(in, &out)]: the whole first document is parsed before
    anything is decoded, so a syntax error leaves [out] as it was; an empty
    input decodes nothing; otherwise the tree is decoded into [out], and the
    type errors met on the way are returned together after the decoding has
    gone through the whole document. *)
Definition yaml_Unmarshal {A} (c : codec A) (data : list Byte.byte) (out : A)
  : A * option error :=
  match yaml_parse data with
  | inl e => (out, Some e)
  | inr None => (out, None)
  | inr (Some n) =>
      let r := unmarshal c n out in
      (d_value r,
       match d_terrors r with
       | [] => None
       | es => Some (TypeError es)
       end)
  end.

(** [yaml.Marshal(&v)] *)
Definition yaml_Marshal {A} (c : codec A) (v : A)
  : list Byte.byte * option error :=
  match yaml_emit (encode c v) with
  | inl e => ([], Some e)
  | inr text => (text, None)
  end.

Record configuration := {
  ourConfigFilename : string;
  ourWorkingDir : string;
  firstRun : bool;
  BindHost : string;
  BindPort : Z;
  AuthName : string;
  AuthPass : string;
  Language : string;
  DNS : dnsConfig;
  TLS : tlsConfig;
  Filters : list filter;
  UserRules : list string;
  DHCP : dhcpd_ServerConfig;
  log_settings : logSettings;
  SchemaVersion : Z
}.

Definition set_BindHost v (c : configuration) :=
  let '(Build_configuration a b d _ f1 f2 f3 f4 f5 f6 f7 f8 f9 f10 f11) := c in
  Build_configuration a b d v f1 f2 f3 f4 f5 f6 f7 f8 f9 f10 f11.
Definition set_BindPort v (c : configuration) :=
  let '(Build_configuration a b d f0 _ f2 f3 f4 f5 f6 f7 f8 f9 f10 f11) := c in
  Build_configuration a b d f0 v f2 f3 f4 f5 f6 f7 f8 f9 f10 f11.
Definition set_AuthName v (c : configuration) :=
  let '(Build_configuration a b d f0 f1 _ f3 f4 f5 f6 f7 f8 f9 f10 f11) := c in
  Build_configuration a b d f0 f1 v f3 f4 f5 f6 f7 f8 f9 f10 f11.
Definition set_AuthPass v (c : configuration) :=
  let '(Build_configuration a b d f0 f1 f2 _ f4 f5 f6 f7 f8 f9 f10 f11) := c in
  Build_configuration a b d f0 f1 f2 v f4 f5 f6 f7 f8 f9 f10 f11.
Definition set_Language v (c : configuration) :=
  let '(Build_configuration a b d f0 f1 f2 f3 _ f5 f6 f7 f8 f9 f10 f11) := c in
  Build_configuration a b d f0 f1 f2 f3 v f5 f6 f7 f8 f9 f10 f11.
Definition set_DNS v (c : configuration) :=
  let '(Build_configuration a b d f0 f1 f2 f3 f4 _ f6 f7 f8 f9 f10 f11) := c in
  Build_configuration a b d f0 f1 f2 f3 f4 v f6 f7 f8 f9 f10 f11.
Definition set_TLS v (c : configuration) :=
  let '(Build_configuration a b d f0 f1 f2 f3 f4 f5 _ f7 f8 f9 f10 f11) := c in
  Build_configuration a b d f0 f1 f2 f3 f4 f5 v f7 f8 f9 f10 f11.
Definition set_Filters v (c : configuration) :=
  let '(Build_configuration a b d f0 f1 f2 f3 f4 f5 f6 _ f8 f9 f10 f11) := c in
  Build_configuration a b d f0 f1 f2 f3 f4 f5 f6 v f8 f9 f10 f11.
Definition set_UserRules v (c : configuration) :=
  let '(Build_configuration a b d f0 f1 f2 f3 f4 f5 f6 f7 _ f9 f10 f11) := c in
  Build_configuration a b d f0 f1 f2 f3 f4 f5 f6 f7 v f9 f10 f11.
Definition set_DHCP v (c : configuration) :=
  let '(Build_configuration a b d f0 f1 f2 f3 f4 f5 f6 f7 f8 _ f10 f11) := c in
  Build_configuration a b d f0 f1 f2 f3 f4 f5 f6 f7 f8 v f10 f11.
Definition set_log_settings v (c : configuration) :=
  let '(Build_configuration a b d f0 f1 f2 f3 f4 f5 f6 f7 f8 f9 _ f11) := c in
  Build_configuration a b d f0 f1 f2 f3 f4 f5 f6 f7 f8 f9 v f11.
Definition set_SchemaVersion v (c : configuration) :=
  let '(Build_configuration a b d f0 f1 f2 f3 f4 f5 f6 f7 f8 f9 f10 _) := c in
  Build_configuration a b d f0 f1 f2 f3 f4 f5 f6 f7 f8 f9 f10 v.

(** The fields of [configuration] that yaml.v2 sees, in declaration order:
    the three unexported fields are skipped, [logSettings] is inlined where
    it is embedded, [sync.RWMutex] is tagged [yaml:"-"]. *)
Definition configuration_fields : list (field configuration) :=
  [ fld "bind_host" BindHost set_BindHost string_codec;
    fld "bind_port" BindPort set_BindPort int_codec;
    fld "auth_name" AuthName set_AuthName string_codec;
    fld "auth_pass" AuthPass set_AuthPass string_codec;
    fld "language" Language set_Language string_codec;
    fld "dns" DNS set_DNS dnsConfig_codec;
    fld "tls" TLS set_TLS tlsConfig_codec;
    fld "filters" Filters set_Filters (slice_codec filter_codec);
    fld "user_rules" UserRules set_UserRules (slice_codec string_codec);
    fld "dhcp" DHCP set_DHCP ServerConfig_codec ]
  ++ inline log_settings set_log_settings logSettings_fields
  ++ [ fld "schema_version" SchemaVersion set_SchemaVersion int_codec ].

Definition configuration_zero : configuration :=
  Build_configuration "" "" false "" 0 "" "" "" dnsConfig_zero tlsConfig_zero
    [] [] (zero ServerConfig_codec) logSettings_zero 0.

Definition configuration_codec : codec configuration :=
  struct_codec "main.configuration" configuration_zero configuration_fields.

(** [var config = configuration{...}]: the value the process starts with.
    Fields the literal does not name have their zero value. *)
Definition config : configuration := {|
  ourConfigFilename := "AdGuardHome.yaml";
  ourWorkingDir := "";
  firstRun := false;
  BindHost := "0.0.0.0";
  BindPort := 3000;
  AuthName := "";
  AuthPass := "";
  Language := "";
  DNS := {|
    dns_BindHost := "0.0.0.0";
    dns_Port := 53;
    FilteringConfig := {|
      ProtectionEnabled := true;
      FilteringEnabled := true;
      BlockedResponseTTL := 10;
      QueryLogEnabled := true;
      Ratelimit := 20;
      RefuseAny := true;
      BootstrapDNS := "8.8.8.8:53"
    |};
    UpstreamDNS := defaultDNS
  |};
  TLS := {|
    tls_settings := {|
      Enabled := false;
      ServerName := "";
      ForceHTTPS := false;
      PortHTTPS := 443;
      PortDNSOverTLS := 853;
      TLSConfig := TLSConfig_zero
    |};
    tls_status := tlsConfigStatus_zero
  |};
  Filters := [
    {| Filter := {| ID := 1 |}; filter_Enabled := true;
       URL := "https://adguardteam.github.io/AdGuardSDNSFilter/Filters/filter.txt";
       Name := "AdGuard Simplified Domain Names filter" |};
    {| Filter := {| ID := 2 |}; filter_Enabled := false;
       URL := "https://adaway.org/hosts.txt";
       Name := "AdAway" |};
    {| Filter := {| ID := 3 |}; filter_Enabled := false;
       URL := "https://hosts-file.net/ad_servers.txt";
       Name := "hpHosts - Ad and Tracking servers only" |};
    {| Filter := {| ID := 4 |}; filter_Enabled := false;
       URL := "http://www.malwaredomainlist.com/hostslist/hosts.txt";
       Name := "MalwareDomainList.com Hosts List" |}
  ];
  UserRules := [];
  DHCP := zero ServerConfig_codec;
  log_settings := logSettings_zero;
  SchemaVersion := currentSchemaVersion
|}.

(** *** The state of the process *)

Inductive log_arg :=
| arg_string (s : string)
| arg_error (e : error).

(** A line handed to the logger: the format and its arguments. *)
Inductive log_entry :=
| Printf (format : string) (args : list log_arg)
| Tracef (format : string) (args : list log_arg).

(** The calls to the functions that config.go does not define, recorded in
    the order they are made. *)
Inductive call :=
| call_deduplicateFilters
| call_updateUniqueFilterID
| call_safeWriteFile (path : string) (data : list Byte.byte)
| call_userFilter_save.

(** The global [config], the files, what was logged and the calls made. *)
Record world := {
  w_config : configuration;
  w_files : gmap string file;
  w_log : list log_entry;
  w_calls : list call
}.

Definition M (A : Type) : Type := world → A * world.

Definition ret {A} (a : A) : M A := λ w, (a, w).

Definition bind {A B} (m : M A) (k : A → M B) : M B :=
  λ w, let '(a, w') := m w in k a w'.

Notation "'let*' x ':=' m 'in' k" := (bind m (λ x, k))
  (at level 10, x name, m at level 100, k at level 200).
Notation "m ';;' k" := (bind m (λ _, k))
  (at level 100, k at level 200, right associativity).

Definition get_config : M configuration := λ w, (w_config w, w).

Definition put_config (c : configuration) : M unit :=
  λ w, (tt, {| w_config := c; w_files := w_files w;
               w_log := w_log w; w_calls := w_calls w |}).

Definition log_Printf (format : string) (args : list log_arg) : M unit :=
  λ w, (tt, {| w_config := w_config w; w_files := w_files w;
               w_log := w_log w ++ [Printf format args];
               w_calls := w_calls w |}).

Definition log_Tracef (format : string) (args : list log_arg) : M unit :=
  λ w, (tt, {| w_config := w_config w; w_files := w_files w;
               w_log := w_log w ++ [Tracef format args];
               w_calls := w_calls w |}).

Definition record_call (c : call) : M unit :=
  λ w, (tt, {| w_config := w_config w; w_files := w_files w;
               w_log := w_log w; w_calls := w_calls w ++ [c] |}).

(** [os.Stat(path)], as far as its error goes. *)
Definition os_Stat (path : string) : M (option error) :=
  λ w, (match w_files w !! path with
        | None => Some ErrNotExist
        | Some _ => None
        end, w).

Definition os_IsNotExist (err : option error) : bool :=
  match err with
  | Some ErrNotExist => true
  | _ => false
  end.

(** [ioutil.ReadFile(path)]: the whole content, or an error and [nil]. *)
Definition ioutil_ReadFile (path : string)
  : M (option (list Byte.byte) * option error) :=
  λ w, (match w_files w !! path with
        | Some (Regular data) => (Some data, None)
        | Some (Unreadable msg) => (None, Some (Errorf msg))
        | None => (None, Some ErrNotExist)
        end, w).

Definition safeWriteFile (path : string) (data : list Byte.byte)
  : M (option error) :=
  record_call (call_safeWriteFile path data);;
  λ w, let '(files, err) := safeWriteFile_files path data (w_files w) in
       (err, {| w_config := w_config w; w_files := files;
                w_log := w_log w; w_calls := w_calls w |}).

(** [userFilter().save()]: the user filter is made of the user rules of the
    configuration and saved to its own file. *)
Definition userFilter_save : M (option error) :=
  record_call call_userFilter_save;;
  λ w, let '(files, err) :=
         userFilter_save_files (UserRules (w_config w)) (w_files w) in
       (err, {| w_config := w_config w; w_files := files;
                w_log := w_log w; w_calls := w_calls w |}).

(** *** The filter normalizer *)

Definition filter_ID (f : filter) : Z := ID (Filter f).

Definition set_filter_ID (id : Z) (f : filter) : filter :=
  set_Filter (set_ID id (Filter f)) f.

(** Modelled from the spec: [deduplicateFilters] is defined elsewhere in
    the repository. Duplicates are entries with the same source URL; the
    sequence is walked in its original order and the first occurrence of
    each URL is kept. [seen] holds the URLs met so far. *)
Fixpoint dedup_filters (seen : list string) (l : list filter) : list filter :=
  match l with
  | [] => []
  | f :: rest =>
      if bool_decide (URL f ∈ seen) then dedup_filters seen rest
      else f :: dedup_filters (URL f :: seen) rest
  end.

(** The next free identifier: one more than the largest one in use, and 1
    when none is. *)
Definition next_free (used : list Z) : Z := 1 + foldr Z.max 0 used.

(** Modelled from the spec: [updateUniqueFilterID] is defined elsewhere in
    the repository. The sequence is walked in order; an entry that lacks an
    identifier (it is not strictly positive) or whose identifier collides
    with one met before is given the next free value; any other entry keeps
    its identifier. [used] holds the identifiers given so far, in order. *)
Fixpoint assign_filter_ids (used : list Z) (l : list filter) : list filter :=
  match l with
  | [] => []
  | f :: rest =>
      let id :=
        if bool_decide (0 < filter_ID f ∧ filter_ID f ∉ used)
        then filter_ID f else next_free used in
      set_filter_ID id f :: assign_filter_ids (used ++ [id]) rest
  end.

Definition deduplicateFilters : M unit :=
  record_call call_deduplicateFilters;;
  let* c := get_config in
  put_config (set_Filters (dedup_filters [] (Filters c)) c).

(** The slice passed to [updateUniqueFilterID] shares its elements with
    [config.Filters]: what it assigns shows in the configuration. *)
Definition updateUniqueFilterID (filters : list filter) : M unit :=
  record_call call_updateUniqueFilterID;;
  let* c := get_config in
  put_config (set_Filters (assign_filter_ids [] filters) c).

(** *** The procedures of config.go

    The methods have the address of the global [config] as their receiver
    and read the global in their bodies; they are written here without the
    receiver. *)

(** [getConfigFilename] returns path to the current config file. *)
Definition getConfigFilename : M string :=
  let* c := get_config in
  let configFile := ourConfigFilename c in
  if negb (filepath_IsAbs configFile)
  then ret (filepath_Join (ourWorkingDir c) (ourConfigFilename c))
  else ret configFile.

(** [readConfigFile] reads config file contents if it exists. *)
Definition readConfigFile : M (option (list Byte.byte) * option error) :=
  let* configFile := getConfigFilename in
  let* err := os_Stat configFile in
  if os_IsNotExist err
  then ret (None, None)
  else ioutil_ReadFile configFile.

(** [getLogSettings] reads logging settings from the config file. *)
Definition getLogSettings : M logSettings :=
  let l := logSettings_zero in
  let* r := readConfigFile in
  let '(yamlFile, err) := r in
  match err, yamlFile with
  | None, Some data =>
      let '(l, err) := yaml_Unmarshal logSettings_codec data l in
      match err with
      | Some e =>
          log_Printf
            "Couldn't get logging settings from the configuration: %s"
            [arg_error e];;
          ret l
      | None => ret l
      end
  | _, _ => ret l
  end.

(** [parseConfig] loads configuration from the YAML file. *)
Definition parseConfig : M (option error) :=
  let* configFile := getConfigFilename in
  log_Printf "Reading config file: %s" [arg_string configFile];;
  let* r := readConfigFile in
  let '(yamlFile, err) := r in
  match err with
  | Some e =>
      log_Printf "Couldn't read config file: %s" [arg_error e];;
      ret (Some e)
  | None =>
      match yamlFile with
      | None =>
          log_Printf "YAML file doesn't exist, skipping it" [];;
          ret None
      | Some data =>
          let* c := get_config in
          let '(c', err) := yaml_Unmarshal configuration_codec data c in
          put_config c';;
          match err with
          | Some e =>
              log_Printf "Couldn't parse config file: %s" [arg_error e];;
              ret (Some e)
          | None =>
              deduplicateFilters;;
              let* c := get_config in
              updateUniqueFilterID (Filters c);;
              ret None
          end
      end
  end.

(** [write] saves configuration to the YAML file. *)
Definition write : M (option error) :=
  let* c := get_config in
  if firstRun c then
    log_Tracef
      "Silently refusing to write config because first run and not configured yet"
      [];;
    ret None
  else
    let* configFile := getConfigFilename in
    log_Tracef "Writing YAML file: %s" [arg_string configFile];;
    let* c := get_config in
    let '(yamlText, err) := yaml_Marshal configuration_codec c in
    match err with
    | Some e =>
        log_Printf "Couldn't generate YAML file: %s" [arg_error e];;
        ret (Some e)
    | None =>
        let* err := safeWriteFile configFile yamlText in
        match err with
        | Some e =>
            log_Printf "Couldn't save YAML config: %s" [arg_error e];;
            ret (Some e)
        | None => ret None
        end
    end.

Definition writeAllConfigs : M (option error) :=
  let* err := write in
  match err with
  | Some e =>
      log_Printf "Couldn't write config: %s" [arg_error e];;
      ret (Some e)
  | None =>
      let* err := userFilter_save in
      match err with
      | Some e =>
          log_Printf "Couldn't save the user filter: %s" [arg_error e];;
          ret (Some e)
      | None => ret None
      end
  end.

(** The path that [getConfigFilename] resolves for a configuration. *)
Definition config_path (c : configuration) : string :=
  fst (getConfigFilename
         {| w_config := c; w_files := ∅; w_log := []; w_calls := [] |}).

(** The configuration a process starts with, once the command line and the
    first-run detection have set the three unexported fields. *)
Definition started (name dir : string) (first : bool) : configuration :=
  let '(Build_configuration _ _ _ f0 f1 f2 f3 f4 f5 f6 f7 f8 f9 f10 f11) :=
    config in
  Build_configuration name dir first f0 f1 f2 f3 f4 f5 f6 f7 f8 f9 f10 f11.

(** The calls made by a run that leads from [w] to [w']. *)
Definition new_calls (w w' : world) : list call :=
  drop (length (w_calls w)) (w_calls w').

End Config.

(** ** Concrete collaborators

    A stand-in for each collaborator, to run the procedures on concrete
    inputs: a reader and a writer for the flow style of YAML restricted to
    what JSON also has (documents in this style are YAML documents; anything
    else is refused as a syntax error), a two-field DHCP configuration, and
    writes that fail on a path that holds something unreadable. *)

Module sample.

Definition dquote : ascii := "034"%char.
Definition backslash : ascii := "092"%char.
Definition newline : ascii := "010"%char.

Definition is_ws (a : ascii) : bool :=
  bool_decide (a = " "%char ∨ a = newline ∨ a = "009"%char ∨ a = "013"%char).

Definition is_digit (a : ascii) : bool :=
  let n := nat_of_ascii a in bool_decide (48 ≤ n ≤ 57)%nat.

Definition is_letter (a : ascii) : bool :=
  let n := nat_of_ascii a in
  bool_decide ((65 ≤ n ≤ 90) ∨ (97 ≤ n ≤ 122) ∨ n = 95)%nat.

Definition is_printable (a : ascii) : bool :=
  let n := nat_of_ascii a in bool_decide (32 ≤ n ≤ 126)%nat.

Fixpoint skip_ws (s : string) : string :=
  match s with
  | String a rest => if is_ws a then skip_ws rest else s
  | EmptyString => s
  end.

(** The content of a double-quoted scalar, the opening quote already read:
    up to the closing quote, with the escapes for a quote, a backslash and a
    new line. *)
Fixpoint read_quoted (s : string) : option (string * string) :=
  match s with
  | EmptyString => None
  | String a rest =>
      if Ascii.eqb a dquote then Some (EmptyString, rest)
      else if Ascii.eqb a backslash then
        match rest with
        | String b rest1 =>
            c ← (if Ascii.eqb b dquote then Some dquote
                 else if Ascii.eqb b backslash then Some backslash
                 else if Ascii.eqb b "n"%char then Some newline
                 else None);
            '(t, rest2) ← read_quoted rest1;
            Some (String c t, rest2)
        | EmptyString => None
        end
      else if is_printable a then
        '(t, rest1) ← read_quoted rest; Some (String a t, rest1)
      else None
  end.

(** A plain scalar: letters, digits, [_], [-] and [~]. *)
Fixpoint read_plain (s : string) : string * string :=
  match s with
  | String a rest =>
      if is_letter a || is_digit a
         || bool_decide (a = "-"%char ∨ a = "~"%char)
      then let '(t, rest1) := read_plain rest in (String a t, rest1)
      else (EmptyString, s)
  | EmptyString => (EmptyString, s)
  end.

Fixpoint digits_value (acc : Z) (s : string) : option Z :=
  match s with
  | EmptyString => Some acc
  | String a rest =>
      if is_digit a
      then digits_value (10 * acc + Z.of_nat (nat_of_ascii a - 48)) rest
      else None
  end.

(** A decimal integer with no leading zero. *)
Definition read_int (t : string) : option Z :=
  match t with
  | String "-" (String a rest) =>
      if is_digit a && negb (Ascii.eqb a "0"%char)
      then Z.opp <$> digits_value 0 (String a rest) else None
  | String "0" EmptyString => Some 0
  | String a _ =>
      if is_digit a && negb (Ascii.eqb a "0"%char)
      then digits_value 0 t else None
  | EmptyString => None
  end.

(** The other spellings that YAML 1.1 reads as booleans or null are kept
    out of the subset. *)
Definition reserved_words : list string :=
  ["y"; "Y"; "yes"; "Yes"; "YES"; "n"; "N"; "no"; "No"; "NO";
   "True"; "TRUE"; "False"; "FALSE"; "on"; "On"; "ON"; "off"; "Off"; "OFF";
   "Null"; "NULL"].

Definition resolve_plain (t : string) : option resolved :=
  if bool_decide (t = "null" ∨ t = "~") then Some RNull
  else if bool_decide (t = "true") then Some (RBool true)
  else if bool_decide (t = "false") then Some (RBool false)
  else match read_int t with
       | Some z => Some (RInt z)
       | None =>
           match t with
           | String a _ =>
               if is_letter a && bool_decide (t ∉ reserved_words)
               then Some RStr else None
           | EmptyString => None
           end
       end.

Definition after_comma (first : bool) (s : string) : option string :=
  if first then Some s
  else match s with
       | String "," rest => Some rest
       | _ => None
       end.

Definition read_key (s : string) : option (string * string) :=
  match skip_ws s with
  | String b rest =>
      if Ascii.eqb b dquote then read_quoted rest
      else
        let '(t, rest1) := read_plain (String b rest) in
        match resolve_plain t with
        | Some RStr => Some (t, rest1)
        | _ => None
        end
  | EmptyString => None
  end.

Definition read_colon (s : string) : option string :=
  match skip_ws s with
  | String ":" rest => Some rest
  | _ => None
  end.

Fixpoint read_value (fuel : nat) (s : string) {struct fuel}
  : option (node * string) :=
  match fuel with
  | O => None
  | S fuel =>
      match skip_ws s with
      | EmptyString => None
      | String a rest =>
          if Ascii.eqb a "{"%char then read_entries fuel rest [] true
          else if Ascii.eqb a "["%char then read_items fuel rest [] true
          else if Ascii.eqb a dquote then
            '(t, rest1) ← read_quoted rest; Some (NScalar RStr t, rest1)
          else
            let '(t, rest1) := read_plain (String a rest) in
            r ← resolve_plain t; Some (NScalar r t, rest1)
      end
  end
with read_items (fuel : nat) (s : string) (acc : list node) (first : bool)
  {struct fuel} : option (node * string) :=
  match fuel with
  | O => None
  | S fuel =>
      match skip_ws s with
      | EmptyString => None
      | String a rest =>
          if Ascii.eqb a "]"%char then Some (NSeq (reverse acc), rest)
          else
            s1 ← after_comma first (String a rest);
            '(v, rest1) ← read_value fuel s1;
            read_items fuel rest1 (v :: acc) false
      end
  end
with read_entries (fuel : nat) (s : string) (acc : list (string * node))
  (first : bool) {struct fuel} : option (node * string) :=
  match fuel with
  | O => None
  | S fuel =>
      match skip_ws s with
      | EmptyString => None
      | String a rest =>
          if Ascii.eqb a "}"%char then Some (NMap (reverse acc), rest)
          else
            s1 ← after_comma first (String a rest);
            '(k, rest1) ← read_key s1;
            rest2 ← read_colon rest1;
            '(v, rest3) ← read_value fuel rest2;
            read_entries fuel rest3 ((k, v) :: acc) false
      end
  end.

Definition parse (data : list Byte.byte) : error + option node :=
  let s := String.string_of_list_byte data in
  match skip_ws s with
  | EmptyString => inr None
  | _ =>
      match read_value (2 * String.length s + 2) s with
      | Some (n, rest) =>
          match skip_ws rest with
          | EmptyString => inr (Some n)
          | _ => inl (Errorf "yaml: did not find expected <document start>")
          end
      | None => inl (Errorf "yaml: did not find expected node content")
      end
  end.

Fixpoint escape (s : string) : option string :=
  match s with
  | EmptyString => Some EmptyString
  | String a rest =>
      t ← escape rest;
      if Ascii.eqb a dquote then Some (String backslash (String dquote t))
      else if Ascii.eqb a backslash
      then Some (String backslash (String backslash t))
      else if Ascii.eqb a newline then Some (String backslash (String "n" t))
      else if is_printable a then Some (String a t)
      else None
  end.

Definition quoted (s : string) : option string :=
  t ← escape s; Some (String dquote (t +:+ String dquote EmptyString)).

Fixpoint write_node (n : node) : option string :=
  match n with
  | NScalar RStr t => quoted t
  | NScalar RNull _ => Some "null"
  | NScalar (RBool b) _ => Some (bool_text b)
  | NScalar (RInt z) _ => Some (pretty z)
  | NSeq items =>
      inner ← (fix go (l : list node) : option string :=
                 match l with
                 | [] => Some EmptyString
                 | [x] => write_node x
                 | x :: rest =>
                     sx ← write_node x; sr ← go rest; Some (sx +:+ ", " +:+ sr)
                 end) items;
      Some ("[" +:+ inner +:+ "]")
  | NMap entries =>
      inner ← (fix go (l : list (string * node)) : option string :=
                 match l with
                 | [] => Some EmptyString
                 | [(k, x)] =>
                     sk ← quoted k; sx ← write_node x; Some (sk +:+ ": " +:+ sx)
                 | (k, x) :: rest =>
                     sk ← quoted k; sx ← write_node x; sr ← go rest;
                     Some (sk +:+ ": " +:+ sx +:+ ", " +:+ sr)
                 end) entries;
      Some ("{" +:+ inner +:+ "}")
  end.

Definition emit (n : node) : error + list Byte.byte :=
  match write_node n with
  | Some s => inr (String.list_byte_of_string s)
  | None => inl (Errorf "yaml: cannot write a control character")
  end.

(** A DHCP configuration with two settings. *)
Record ServerConfig := {
  dhcp_Enabled : bool;
  InterfaceName : string
}.

Definition ServerConfig_fields : list (field ServerConfig) :=
  [ fld "enabled" dhcp_Enabled
      (λ v d, {| dhcp_Enabled := v; InterfaceName := InterfaceName d |})
      bool_codec;
    fld "interface_name" InterfaceName
      (λ v d, {| dhcp_Enabled := dhcp_Enabled d; InterfaceName := v |})
      string_codec ].

Definition dhcp_codec : codec ServerConfig :=
  struct_codec "dhcpd.ServerConfig"
    {| dhcp_Enabled := false; InterfaceName := "" |} ServerConfig_fields.

Definition IsAbs (path : string) : bool :=
  match path with
  | String "/" _ => true
  | _ => false
  end.

Definition Join (dir name : string) : string :=
  if bool_decide (dir = "") then name
  else if bool_decide (name = "") then dir
  else dir +:+ "/" +:+ name.

(** A write fails on a path that holds something unreadable and replaces
    the content otherwise. *)
Definition write_file (path : string) (data : list Byte.byte)
    (files : gmap string file) : gmap string file * option error :=
  match files !! path with
  | Some (Unreadable msg) => (files, Some (Errorf msg))
  | _ => (<[path := Regular data]> files, None)
  end.

Definition user_rules_text (rules : list string) : string :=
  foldr (λ r acc, r +:+ String newline acc) EmptyString rules.

Definition save_user_filter (rules : list string) (files : gmap string file)
  : gmap string file * option error :=
  write_file "data/filters/0.txt"
    (String.list_byte_of_string (user_rules_text rules)) files.

Definition collaborators : Collaborators := {|
  dhcpd_ServerConfig := ServerConfig;
  ServerConfig_codec := dhcp_codec;
  currentSchemaVersion := 2;
  yaml_parse := parse;
  yaml_emit := emit;
  filepath_IsAbs := IsAbs;
  filepath_Join := Join;
  safeWriteFile_files := write_file;
  userFilter_save_files := save_user_filter
|}.

(** Concrete states: the built-in configuration, in the directory
    [/opt/adguardhome], over a given content of the file system. *)
Definition store (first : bool) : @configuration collaborators :=
  @started collaborators "AdGuardHome.yaml" "/opt/adguardhome" first.

Definition config_file : string := "/opt/adguardhome/AdGuardHome.yaml".

Definition state (first : bool) (files : gmap string file)
  : @world collaborators :=
  {| w_config := store first; w_files := files; w_log := []; w_calls := [] |}.

Definition text (s : string) : list Byte.byte := String.list_byte_of_string s.

(** A flow mapping that is never closed. *)
Definition malformed : list Byte.byte := text "{bind_port: 3000".

(** Well-formed, with a value for [verbose] that is not a boolean. *)
Definition mistyped : list Byte.byte :=
  text "{log_file: syslog, verbose: maybe}".

(** Four filters; the third repeats the URL of the first, the second and
    the fourth carry the same identifier. *)
Definition four_filters : list Byte.byte :=
  text ("{filters: [{url: alpha, name: first}, {id: 7, url: beta}, "
        +:+ "{url: alpha, name: again}, {id: 7, url: gamma}]}").

Definition holding (data : list Byte.byte) : gmap string file :=
  {[ config_file := Regular data ]}.

Definition no_files : gmap string file := ∅.

(** The configuration file exists and cannot be read or written. *)
Definition denied : gmap string file :=
  {[ config_file := Unreadable "permission denied" ]}.

End sample.

(** ** Properties *)

Section Properties.

Context `{Collaborators}.

Lemma getConfigFilename_run (w : world) :
  getConfigFilename w = (config_path (w_config w), w).
Proof.
  unfold config_path, getConfigFilename, bind, get_config, ret; simpl.
  destruct (filepath_IsAbs _); reflexivity.
Qed.

Lemma readConfigFile_run (w : world) :
  readConfigFile w =
  (match w_files w !! config_path (w_config w) with
   | None => (None, None)
   | Some (Regular data) => (Some data, None)
   | Some (Unreadable msg) => (None, Some (Errorf msg))
   end, w).
Proof.
  unfold readConfigFile, bind. rewrite getConfigFilename_run.
  unfold os_Stat, ioutil_ReadFile, ret.
  destruct (w_files w !! _) as [[data|msg]|] eqn:E; simpl; rewrite ?E;
    reflexivity.
Qed.

Lemma new_calls_same (w w' : world) :
  w_calls w' = w_calls w → new_calls w w' = [].
Proof. intros E. unfold new_calls. rewrite E. apply drop_all. Qed.

Lemma new_calls_app (w w' : world) (l : list call) :
  w_calls w' = w_calls w ++ l → new_calls w w' = l.
Proof. intros E. unfold new_calls. rewrite E. apply drop_app_length. Qed.

(** [parseConfig] on a file that can be read. *)
Lemma parseConfig_present (w : world) (data : list Byte.byte) :
  w_files w !! config_path (w_config w) = Some (Regular data) →
  parseConfig w =
  (let w1 := snd (log_Printf "Reading config file: %s"
                    [arg_string (config_path (w_config w))] w) in
   let '(c', err) := yaml_Unmarshal configuration_codec data (w_config w) in
   let w2 := snd (put_config c' w1) in
   match err with
   | Some e =>
       (Some e,
        snd (log_Printf "Couldn't parse config file: %s" [arg_error e] w2))
   | None =>
       let w3 := snd (deduplicateFilters w2) in
       (None, snd (updateUniqueFilterID (Filters (w_config w3)) w3))
   end).
Proof.
  intros Hfile. unfold parseConfig, bind.
  rewrite getConfigFilename_run. simpl.
  rewrite readConfigFile_run. simpl. rewrite Hfile. simpl.
  destruct (yaml_Unmarshal _ _ _) as [c' [e|]]; reflexivity.
Qed.

(** [parseConfig] on a path that does not exist. *)
Lemma parseConfig_absent (w : world) :
  w_files w !! config_path (w_config w) = None →
  parseConfig w =
  (None,
   {| w_config := w_config w; w_files := w_files w;
      w_log := w_log w
               ++ [Printf "Reading config file: %s"
                     [arg_string (config_path (w_config w))];
                   Printf "YAML file doesn't exist, skipping it" []];
      w_calls := w_calls w |}).
Proof.
  intros Hfile. unfold parseConfig, bind.
  rewrite getConfigFilename_run. simpl.
  rewrite readConfigFile_run. simpl. rewrite Hfile. simpl.
  unfold ret. rewrite <- app_assoc. reflexivity.
Qed.

(** C1: when the configuration file holds bytes that the YAML parser
    rejects, [parseConfig] returns the parser's error and every field of the
    global configuration is what it was before the call; no file is
    touched and the normalizer is not called. *)
Theorem parseConfig_malformed_keeps_config
    (w : world) (data : list Byte.byte) (e : error) :
  w_files w !! config_path (w_config w) = Some (Regular data) →
  yaml_parse data = inl e →
  ∃ w', parseConfig w = (Some e, w')
        ∧ w_config w' = w_config w
        ∧ w_files w' = w_files w
        ∧ new_calls w w' = [].
Proof.
  intros Hfile Hsyntax.
  rewrite (parseConfig_present w data Hfile).
  unfold yaml_Unmarshal. rewrite Hsyntax. simpl.
  eexists. split; [reflexivity|]. simpl.
  destruct w as [c files lg calls]; simpl.
  repeat split. unfold new_calls; simpl. apply drop_all.
Qed.

(** C6: when the resolved path does not exist, [readConfigFile] returns
    neither bytes nor an error, [parseConfig] returns no error, and the
    configuration is still the built-in one: bind port 3000, DNS port 53,
    and the two built-in upstream resolvers. *)
Theorem load_absent_keeps_defaults
    (w : world) (name dir : string) (first : bool) :
  w_config w = started name dir first →
  w_files w !! config_path (w_config w) = None →
  readConfigFile w = ((None, None), w)
  ∧ ∃ w', parseConfig w = (None, w')
          ∧ w_config w' = started name dir first
          ∧ BindPort (w_config w') = 3000
          ∧ dns_Port (DNS (w_config w')) = 53
          ∧ UpstreamDNS (DNS (w_config w'))
            = ["tls://1.1.1.1"; "tls://1.0.0.1"].
Proof.
  intros Hc Hfile. split.
  - rewrite readConfigFile_run, Hfile. reflexivity.
  - rewrite (parseConfig_absent w Hfile).
    eexists. split; [reflexivity|]. simpl. rewrite Hc.
    repeat split.
Qed.

(** C7: with the first-run flag set, [write] returns no error, calls
    nothing that writes, and leaves the files as they are. *)
Theorem write_first_run_no_write (w : world) :
  firstRun (w_config w) = true →
  ∃ w', write w = (None, w')
        ∧ w_files w' = w_files w
        ∧ new_calls w w' = []
        ∧ w_config w' = w_config w.
Proof.
  intros Hfirst. unfold write, bind, get_config. simpl.
  rewrite Hfirst. simpl.
  eexists. split; [reflexivity|]. simpl.
  repeat split. unfold new_calls. apply drop_all.
Qed.

(** Which calls [parseConfig] makes: those of the normalizer, and only
    after the bytes of a present file have been unmarshalled without
    error. *)
Lemma parseConfig_calls (w : world) :
  new_calls w (snd (parseConfig w)) =
  match w_files w !! config_path (w_config w) with
  | Some (Regular data) =>
      match snd (yaml_Unmarshal configuration_codec data (w_config w)) with
      | None => [call_deduplicateFilters; call_updateUniqueFilterID]
      | Some _ => []
      end
  | _ => []
  end.
Proof.
  destruct (w_files w !! _) as [[data|msg]|] eqn:Hfile.
  - rewrite (parseConfig_present w data Hfile).
    destruct (yaml_Unmarshal _ _ _) as [c' [e|]]; simpl.
    + apply new_calls_same. reflexivity.
    + apply new_calls_app. simpl. rewrite <- app_assoc. reflexivity.
  - unfold parseConfig, bind. rewrite getConfigFilename_run. simpl.
    rewrite readConfigFile_run. simpl. rewrite Hfile. simpl.
    apply new_calls_same. reflexivity.
  - rewrite (parseConfig_absent w Hfile). apply new_calls_same. reflexivity.
Qed.

(** C10: when the configuration file is absent, [parseConfig] returns no
    error and calls neither [deduplicateFilters] nor
    [updateUniqueFilterID]: the configuration, and with it the filter list,
    is exactly what it was; on a first run that is the built-in list. *)
Theorem parseConfig_absent_skips_normalizer (w : world) :
  w_files w !! config_path (w_config w) = None →
  ∃ w', parseConfig w = (None, w')
        ∧ new_calls w w' = []
        ∧ w_config w' = w_config w
        ∧ (∀ name dir first,
             w_config w = started name dir first →
             Filters (w_config w') = Filters config).
Proof.
  intros Hfile. rewrite (parseConfig_absent w Hfile).
  eexists. split; [reflexivity|]. simpl.
  split; [apply new_calls_same; reflexivity|].
  split; [reflexivity|].
  intros name dir first ->. reflexivity.
Qed.

(** C2, as the code has it: [writeAllConfigs] first runs [write]; when that
    returns an error, the error is logged and returned at once and the user
    filter is not saved; when it returns none, the user filter is saved,
    and the outcome of that is returned, after being logged when it is an
    error. Nothing else is logged, and the configuration is what [write]
    left. *)
Theorem writeAllConfigs_stops_at_first_error (w : world) :
  let '(err, w1) := write w in
  match err with
  | Some e =>
      ∃ w', writeAllConfigs w = (Some e, w')
            ∧ new_calls w1 w' = []
            ∧ w_files w' = w_files w1
            ∧ w_log w' = w_log w1
                ++ [Printf "Couldn't write config: %s" [arg_error e]]
            ∧ w_config w' = w_config w1
  | None =>
      let '(err2, w2) := userFilter_save w1 in
      ∃ w', writeAllConfigs w = (err2, w')
            ∧ new_calls w1 w' = [call_userFilter_save]
            ∧ w_files w' = w_files w2
            ∧ w_log w' = w_log w1
                ++ match err2 with
                   | Some e =>
                       [Printf "Couldn't save the user filter: %s"
                          [arg_error e]]
                   | None => []
                   end
            ∧ w_config w' = w_config w1
  end.
Proof.
  unfold writeAllConfigs, bind.
  destruct (write w) as [[e|] w1].
  - eexists. split; [reflexivity|]. simpl.
    split; [apply new_calls_same; reflexivity|].
    repeat split.
  - unfold userFilter_save, bind, record_call. simpl.
    destruct (userFilter_save_files _ _) as [files [e|]]; simpl;
      (eexists; split; [reflexivity|]; simpl;
       split; [apply new_calls_app; reflexivity|];
       split; [reflexivity|]; split; [|reflexivity]).
    + reflexivity.
    + symmetry. apply app_nil_r.
Qed.

(** The keys of the persisted document, and of its [tls] section. *)
Definition top_level_keys : list string :=
  ["bind_host"; "bind_port"; "auth_name"; "auth_pass"; "language"; "dns";
   "tls"; "filters"; "user_rules"; "dhcp"; "log_file"; "verbose";
   "schema_version"].

(** C3: whatever the configuration, the node that [Marshal] hands to the
    emitter is a mapping whose keys are, in this order, [bind_host],
    [bind_port], [auth_name], [auth_pass], [language], [dns], [tls],
    [filters], [user_rules], [dhcp], [log_file], [verbose] and, last,
    [schema_version]; and it does not depend on the TLS status fields. *)
Theorem marshal_top_level_key_order (c : configuration) :
  mapping_keys (encode configuration_codec c) = top_level_keys
  ∧ last (mapping_keys (encode configuration_codec c)) = Some "schema_version"
  ∧ yaml_Marshal configuration_codec c
    = match yaml_emit (encode configuration_codec c) with
      | inl e => ([], Some e)
      | inr text => (text, None)
      end
  ∧ ∀ status : tlsConfigStatus,
      encode configuration_codec (set_TLS (set_tls_status status (TLS c)) c)
      = encode configuration_codec c.
Proof.
  split; [reflexivity|]. split; [reflexivity|]. split; [reflexivity|].
  intros status. destruct c. reflexivity.
Qed.

(** C4, on the code: whatever the configuration, the keys of the [tls]
    section of the persisted document start with [enaled], the yaml tag of
    [Enabled] as the source spells it, and no key [enabled] is written. *)
Theorem tls_section_keys_as_written (c : configuration) :
  mapping_get (encode configuration_codec c) "tls"
  = Some (encode tlsConfig_codec (TLS c))
  ∧ mapping_keys (encode tlsConfig_codec (TLS c))
    = ["enaled"; "server_name"; "force_https"; "port_https";
       "port_dns_over_tls"; "certificate_chain"; "private_key"]
  ∧ mapping_get (encode tlsConfig_codec (TLS c)) "enabled" = None.
Proof. repeat split. Qed.

(** *** Encoding then decoding *)

Lemma string_roundtrip (s out : string) :
  unmarshal string_codec (encode string_codec s) out = good s.
Proof. reflexivity. Qed.

Lemma bool_roundtrip (b out : bool) :
  unmarshal bool_codec (encode bool_codec b) out = good b.
Proof. reflexivity. Qed.

Lemma is_intb_true (z : Z) : is_int z → is_intb z = true.
Proof.
  unfold is_int, is_intb. intros [? ?].
  apply andb_true_intro. split; apply Z.leb_le; assumption.
Qed.

Lemma int_roundtrip (z out : Z) :
  is_int z → unmarshal int_codec (encode int_codec z) out = good z.
Proof. intros Hz. simpl. rewrite (is_intb_true z Hz). reflexivity. Qed.

Lemma slice_roundtrip {A} (c : codec A) (l out : list A) :
  Forall (λ x, unmarshal c (encode c x) (zero c) = good x) l →
  unmarshal (slice_codec c) (encode (slice_codec c) l) out = good l.
Proof.
  intros Hl. simpl.
  assert (E : decode_items c (map (encode c) l) = (l, [])).
  { induction Hl as [|x l Hx _ IH]; simpl; [reflexivity|].
    rewrite Hx, IH. reflexivity. }
  rewrite E. reflexivity.
Qed.

Lemma struct_roundtrip_unfold {S} (name : string) (z : S)
    (fs : list (field S)) (s out : S) :
  unmarshal (struct_codec name z fs) (encode (struct_codec name z fs) s) out
  = let '(s', es) :=
      mappingStruct fs (map (λ f, (f_key f, f_encode f s)) fs) out in
    Decoded s' true es.
Proof. reflexivity. Qed.

Lemma filter_roundtrip (f out : filter) :
  is_int (filter_ID f) →
  unmarshal filter_codec (encode filter_codec f) out = good f.
Proof.
  destruct f as [[id] en url name]. unfold filter_ID. simpl. intros Hz.
  rewrite (is_intb_true id Hz). simpl.
  destruct out. reflexivity.
Qed.

Definition valid_dnsConfig (d : dnsConfig) : Prop :=
  is_int (dns_Port d)
  ∧ is_int (BlockedResponseTTL (FilteringConfig d))
  ∧ is_int (Ratelimit (FilteringConfig d)).

Lemma dnsConfig_roundtrip (d out : dnsConfig) :
  valid_dnsConfig d →
  unmarshal dnsConfig_codec (encode dnsConfig_codec d) out = good d.
Proof.
  intros (Hport & Httl & Hrate).
  unfold dnsConfig_codec. rewrite struct_roundtrip_unfold.
  cbn -[unmarshal encode slice_codec].
  rewrite !string_roundtrip, !bool_roundtrip, !int_roundtrip by assumption.
  rewrite slice_roundtrip
    by (apply Forall_forall; intros; apply string_roundtrip).
  destruct d as [a b [] u], out as [a' b' [] u']. reflexivity.
Qed.

Definition valid_tlsConfig (t : tlsConfig) : Prop :=
  is_int (PortHTTPS (tls_settings t))
  ∧ is_int (PortDNSOverTLS (tls_settings t)).

(** The status fields are not written, so they are not read back: they stay
    what they were in the target. *)
Lemma tlsConfig_roundtrip (t out : tlsConfig) :
  valid_tlsConfig t →
  unmarshal tlsConfig_codec (encode tlsConfig_codec t) out
  = good (set_tls_settings (tls_settings t) out).
Proof.
  intros (Hhttps & Hdot).
  unfold tlsConfig_codec. rewrite struct_roundtrip_unfold.
  cbn -[unmarshal encode].
  rewrite !string_roundtrip, !bool_roundtrip, !int_roundtrip by assumption.
  destruct t as [[a b c d e []] st], out as [[a' b' c' d' e' []] st'].
  reflexivity.
Qed.

(** A configuration that a Go process can hold: its integers fit [int]. *)
Definition valid_configuration (c : configuration) : Prop :=
  is_int (BindPort c)
  ∧ valid_dnsConfig (DNS c)
  ∧ valid_tlsConfig (TLS c)
  ∧ Forall (λ f, is_int (filter_ID f)) (Filters c)
  ∧ is_int (SchemaVersion c).

(** The fields of a configuration that are persisted. *)
Definition persisted (c : configuration) :=
  (BindHost c, BindPort c, AuthName c, AuthPass c, Language c, DNS c,
   tls_settings (TLS c), Filters c, UserRules c, DHCP c, log_settings c,
   SchemaVersion c).

(** The fields that are not: the three unexported ones and the TLS status. *)
Definition not_persisted (c : configuration) :=
  (ourConfigFilename c, ourWorkingDir c, firstRun c, tls_status (TLS c)).

(** [c0] with every persisted field replaced by that of [c]. *)
Definition overlay (c0 c : configuration) : configuration := {|
  ourConfigFilename := ourConfigFilename c0;
  ourWorkingDir := ourWorkingDir c0;
  firstRun := firstRun c0;
  BindHost := BindHost c;
  BindPort := BindPort c;
  AuthName := AuthName c;
  AuthPass := AuthPass c;
  Language := Language c;
  DNS := DNS c;
  TLS := set_tls_settings (tls_settings (TLS c)) (TLS c0);
  Filters := Filters c;
  UserRules := UserRules c;
  DHCP := DHCP c;
  log_settings := log_settings c;
  SchemaVersion := SchemaVersion c
|}.

Lemma configuration_roundtrip (c c0 : configuration) :
  valid_configuration c →
  unmarshal ServerConfig_codec (encode ServerConfig_codec (DHCP c)) (DHCP c0)
  = good (DHCP c) →
  unmarshal configuration_codec (encode configuration_codec c) c0
  = good (overlay c0 c).
Proof.
  intros (Hport & Hdns & Htls & Hfilters & Hschema) Hdhcp.
  unfold configuration_codec. rewrite struct_roundtrip_unfold.
  cbn -[unmarshal encode slice_codec dnsConfig_codec tlsConfig_codec
        filter_codec].
  rewrite !string_roundtrip, !bool_roundtrip, !int_roundtrip by assumption.
  rewrite dnsConfig_roundtrip, tlsConfig_roundtrip by assumption.
  rewrite (slice_roundtrip filter_codec).
  2:{ eapply Forall_impl; [exact Hfilters|].
      intros f Hf. apply filter_roundtrip, Hf. }
  rewrite (slice_roundtrip string_codec)
    by (apply Forall_forall; intros; apply string_roundtrip).
  cbn -[unmarshal encode].
  assert (E : ∀ x y, unmarshal ServerConfig_codec
                       (encode ServerConfig_codec x) y = good (DHCP c) →
          d_value (unmarshal ServerConfig_codec
                     (encode ServerConfig_codec x) y) = DHCP c
          ∧ d_terrors (unmarshal ServerConfig_codec
                         (encode ServerConfig_codec x) y) = [])
    by (intros x y ->; split; reflexivity).
  destruct c as [n d fr bh bp an ap la dn tl fi ur dh [lf vb] sv],
           c0 as [n0 d0 fr0 bh0 bp0 an0 ap0 la0 dn0 tl0 fi0 ur0 dh0 [lf0 vb0] sv0].
  cbn -[unmarshal encode] in *.
  destruct (E _ _ Hdhcp) as [-> ->]. reflexivity.
Qed.

(** C5: a configuration whose integers fit [int] is marshalled, and the
    bytes are unmarshalled into any configuration [c0]. Given that the DHCP
    section survives the trip and that the parser reads the emitted bytes
    back as the tree they were made of, no error is returned and the result
    has every persisted field of the original; the fields that are not
    persisted (the unexported ones and the TLS status) are those of [c0]. *)
Theorem marshal_unmarshal_roundtrip
    (c c0 : configuration) (text : list Byte.byte) :
  valid_configuration c →
  unmarshal ServerConfig_codec (encode ServerConfig_codec (DHCP c)) (DHCP c0)
  = good (DHCP c) →
  yaml_Marshal configuration_codec c = (text, None) →
  yaml_parse text = inr (Some (encode configuration_codec c)) →
  ∃ c', yaml_Unmarshal configuration_codec text c0 = (c', None)
        ∧ persisted c' = persisted c
        ∧ not_persisted c' = not_persisted c0.
Proof.
  intros Hvalid Hdhcp _ Hparse.
  unfold yaml_Unmarshal. rewrite Hparse.
  rewrite (configuration_roundtrip c c0 Hvalid Hdhcp). simpl.
  eexists. split; [reflexivity|].
  destruct c0 as [n0 d0 fr0 bh0 bp0 an0 ap0 la0 dn0 [ts0 st0]]. split; reflexivity.
Qed.

(** *** The early extraction of the log settings *)

Lemma getLogSettings_run (w : world) :
  getLogSettings w =
  match w_files w !! config_path (w_config w) with
  | Some (Regular data) =>
      let '(l, err) := yaml_Unmarshal logSettings_codec data logSettings_zero in
      match err with
      | Some e =>
          (l, snd (log_Printf
                     "Couldn't get logging settings from the configuration: %s"
                     [arg_error e] w))
      | None => (l, w)
      end
  | _ => (logSettings_zero, w)
  end.
Proof.
  unfold getLogSettings, bind. rewrite readConfigFile_run.
  destruct (w_files w !! _) as [[data|msg]|]; try reflexivity.
  destruct (yaml_Unmarshal _ _ _) as [l [e|]]; reflexivity.
Qed.

(** The inputs on which the early extraction has nothing sound to read: no
    file, an unreadable one, or bytes whose unmarshalling returns an
    error. *)
Definition early_load_fails (w : world) : Prop :=
  match w_files w !! config_path (w_config w) with
  | None => True
  | Some (Unreadable _) => True
  | Some (Regular data) =>
      snd (yaml_Unmarshal logSettings_codec data logSettings_zero) ≠ None
  end.

(** C8, as the code has it: on a missing file, an unreadable file or bytes
    whose unmarshalling fails, [getLogSettings] returns log settings and
    no error, and touches neither the configuration nor the files. The
    settings are the default ones unless the bytes parse to a document: then
    they are what decoding that document into the default ones leaves,
    type errors or not, and the error is logged. *)
Theorem getLogSettings_on_failure (w : world) :
  early_load_fails w →
  ∃ l w', getLogSettings w = (l, w')
    ∧ w_config w' = w_config w
    ∧ w_files w' = w_files w
    ∧ new_calls w w' = []
    ∧ ((∀ data n, w_files w !! config_path (w_config w) = Some (Regular data) →
                  yaml_parse data ≠ inr (Some n)) →
       l = logSettings_zero)
    ∧ (∀ data n, w_files w !! config_path (w_config w) = Some (Regular data) →
                 yaml_parse data = inr (Some n) →
                 l = d_value (unmarshal logSettings_codec n logSettings_zero)
                 ∧ ∃ e, w_log w' = w_log w ++
                     [Printf
                        "Couldn't get logging settings from the configuration: %s"
                        [arg_error e]]).
Proof.
  unfold early_load_fails. intros Hfail. rewrite getLogSettings_run.
  destruct (w_files w !! _) as [[data|msg]|] eqn:Hfile.
  - unfold yaml_Unmarshal in *.
    destruct (yaml_parse data) as [e|[n|]] eqn:Hparse; simpl in *.
    + eexists _, _. split; [reflexivity|]. simpl.
      split; [reflexivity|]. split; [reflexivity|].
      split; [apply new_calls_same; reflexivity|].
      split; [reflexivity|].
      intros data' n' [= <-] Hparse'. congruence.
    + destruct (d_terrors _) as [|te tes] eqn:Herrs; [congruence|].
      eexists _, _. split; [reflexivity|]. simpl.
      split; [reflexivity|]. split; [reflexivity|].
      split; [apply new_calls_same; reflexivity|]. split.
      * intros Hno. exfalso. apply (Hno data n); [reflexivity|assumption].
      * intros data' n' [= <-] Hparse'. rewrite Hparse in Hparse'.
        injection Hparse' as <-. split; [reflexivity|].
        eexists. reflexivity.
    + congruence.
  - eexists _, _. split; [reflexivity|].
    split; [reflexivity|]. split; [reflexivity|].
    split; [apply new_calls_same; reflexivity|].
    split; [reflexivity|]. intros data n [=].
  - eexists _, _. split; [reflexivity|].
    split; [reflexivity|]. split; [reflexivity|].
    split; [apply new_calls_same; reflexivity|].
    split; [reflexivity|]. intros data n [=].
Qed.

(** *** The filter normalizer *)

Lemma filter_ID_set (id : Z) (f : filter) :
  filter_ID (set_filter_ID id f) = id.
Proof. destruct f as [[i] e u n]. reflexivity. Qed.

Lemma URL_set_filter_ID (id : Z) (f : filter) :
  URL (set_filter_ID id f) = URL f.
Proof. destruct f as [[i] e u n]. reflexivity. Qed.

Lemma Filters_set (v : list filter) (c : configuration) :
  Filters (set_Filters v c) = v.
Proof. destruct c. reflexivity. Qed.

Lemma dedup_filters_sublist (seen : list string) (l : list filter) :
  sublist (dedup_filters seen l) l.
Proof.
  revert seen. induction l as [|f l IH]; intros seen; simpl.
  - constructor.
  - case_bool_decide.
    + apply sublist_cons, IH.
    + apply sublist_skip, IH.
Qed.

Lemma dedup_filters_urls (seen : list string) (l : list filter) :
  NoDup (map URL (dedup_filters seen l))
  ∧ ∀ u, u ∈ map URL (dedup_filters seen l) → u ∉ seen.
Proof.
  revert seen. induction l as [|f l IH]; intros seen; simpl.
  - split; [constructor|]. intros u Hu. inversion Hu.
  - case_bool_decide as Hseen.
    + apply IH.
    + destruct (IH (URL f :: seen)) as [Hnd Hfresh]. simpl. split.
      * constructor; [|exact Hnd].
        intros Hin. apply (Hfresh _ Hin). left.
      * intros u Hu. apply elem_of_cons in Hu as [->|Hu]; [exact Hseen|].
        intros Hin. apply (Hfresh _ Hu). right. exact Hin.
Qed.

Lemma dedup_filters_covers (seen : list string) (l : list filter) (f : filter) :
  f ∈ l → URL f ∈ seen ∨ URL f ∈ map URL (dedup_filters seen l).
Proof.
  revert seen. induction l as [|a l IH]; intros seen Hin; simpl.
  - inversion Hin.
  - apply elem_of_cons in Hin as [->|Hin].
    + case_bool_decide as Hseen; [left; exact Hseen|]. right. simpl. left.
    + case_bool_decide as Hseen.
      * apply IH, Hin.
      * destruct (IH (URL a :: seen) Hin) as [Hs|Hk].
        -- apply elem_of_cons in Hs as [->|Hs]; [|left; exact Hs].
           right. simpl. left.
        -- right. simpl. right. exact Hk.
Qed.

(** An entry of [l] with no entry of the same URL before it. *)
Definition first_occurrence (l : list filter) (f : filter) : Prop :=
  ∃ l1 l2, l = l1 ++ f :: l2 ∧ URL f ∉ map URL l1.

Lemma dedup_filters_first (seen : list string) (l : list filter) (f : filter) :
  f ∈ dedup_filters seen l → first_occurrence l f ∧ URL f ∉ seen.
Proof.
  revert seen. induction l as [|a l IH]; intros seen Hin; simpl in Hin.
  - inversion Hin.
  - case_bool_decide as Hseen.
    + destruct (IH seen Hin) as [(l1 & l2 & -> & Hl1) Hf].
      split; [|exact Hf]. exists (a :: l1), l2. split; [reflexivity|].
      simpl. intros Hu. apply elem_of_cons in Hu as [Hu|Hu]; [|tauto].
      apply Hf. rewrite Hu. exact Hseen.
    + apply elem_of_cons in Hin as [->|Hin].
      * split; [|exact Hseen]. exists [], l. split; [reflexivity|].
        simpl. intros Hu. inversion Hu.
      * destruct (IH (URL a :: seen) Hin) as [(l1 & l2 & -> & Hl1) Hf].
        split.
        -- exists (a :: l1), l2. split; [reflexivity|].
           simpl. intros Hu. apply elem_of_cons in Hu as [Hu|Hu]; [|tauto].
           apply Hf. rewrite Hu. left.
        -- intros Hu. apply Hf. right. exact Hu.
Qed.

Lemma foldr_max_bounds (used : list Z) :
  0 ≤ foldr Z.max 0 used ∧ ∀ i, i ∈ used → i ≤ foldr Z.max 0 used.
Proof.
  induction used as [|a used [IH0 IH]]; simpl.
  - split; [lia|]. intros i Hi. inversion Hi.
  - split; [lia|]. intros i Hi.
    apply elem_of_cons in Hi as [->|Hi]; [lia|]. specialize (IH i Hi). lia.
Qed.

Lemma next_free_fresh (used : list Z) :
  0 < next_free used ∧ next_free used ∉ used.
Proof.
  unfold next_free. destruct (foldr_max_bounds used) as [H0 Hmax].
  split; [lia|]. intros Hin. specialize (Hmax _ Hin). lia.
Qed.

(** The identifier that [assign_filter_ids] gives to [f] when [used] are
    the identifiers given before. *)
Definition assigned_id (used : list Z) (f : filter) : Z :=
  if bool_decide (0 < filter_ID f ∧ filter_ID f ∉ used)
  then filter_ID f else next_free used.

Lemma assigned_id_fresh (used : list Z) (f : filter) :
  0 < assigned_id used f ∧ assigned_id used f ∉ used.
Proof.
  unfold assigned_id. case_bool_decide as Hkeep; [exact Hkeep|].
  apply next_free_fresh.
Qed.

Lemma assign_filter_ids_fresh (used : list Z) (l : list filter) :
  Forall (λ f, 0 < filter_ID f) (assign_filter_ids used l)
  ∧ NoDup (map filter_ID (assign_filter_ids used l))
  ∧ ∀ i, i ∈ map filter_ID (assign_filter_ids used l) → i ∉ used.
Proof.
  revert used. induction l as [|f l IH]; intros used; simpl.
  - split; [constructor|]. split; [constructor|]. intros i Hi. inversion Hi.
  - fold (assigned_id used f).
    destruct (assigned_id_fresh used f) as [Hpos Hfresh].
    destruct (IH (used ++ [assigned_id used f])) as (IHpos & IHnd & IHfresh).
    rewrite filter_ID_set. split; [|split].
    + constructor; [rewrite filter_ID_set; exact Hpos|exact IHpos].
    + constructor; [|exact IHnd].
      intros Hin. apply (IHfresh _ Hin). apply elem_of_app. right. left.
    + intros i Hi. apply elem_of_cons in Hi as [->|Hi]; [exact Hfresh|].
      intros Hu. apply (IHfresh _ Hi). apply elem_of_app. left. exact Hu.
Qed.

(** The entries are the same, up to their identifiers. *)
Lemma assign_filter_ids_entries (used : list Z) (l : list filter) :
  Forall2 (λ f g, g = set_filter_ID (filter_ID g) f)
    l (assign_filter_ids used l).
Proof.
  revert used. induction l as [|f l IH]; intros used; simpl.
  - constructor.
  - constructor; [|apply IH]. rewrite filter_ID_set. reflexivity.
Qed.

(** The rule, entry by entry: [g], the entry that [f] becomes, has the
    identifier of [f] when that is strictly positive and differs from those
    of the entries before [g]; it has the next free one otherwise. *)
Lemma assign_filter_ids_rule (used : list Z) (l k1 k2 o1 o2 : list filter)
    (f g : filter) :
  l = k1 ++ f :: k2 →
  assign_filter_ids used l = o1 ++ g :: o2 →
  length k1 = length o1 →
  filter_ID g = assigned_id (used ++ map filter_ID o1) f.
Proof.
  revert used l o1. induction k1 as [|a k1 IH]; intros used l o1 -> Hout Hlen.
  - destruct o1 as [|b o1]; [|discriminate Hlen]. simpl in *.
    injection Hout as <- _. rewrite filter_ID_set, app_nil_r. reflexivity.
  - destruct o1 as [|b o1]; [discriminate Hlen|]. simpl in *.
    injection Hout as <- Hout. injection Hlen as Hlen.
    rewrite (IH _ _ _ eq_refl Hout Hlen).
    rewrite filter_ID_set, <- app_assoc. reflexivity.
Qed.

Lemma set_filter_ID_same (f : filter) : set_filter_ID (filter_ID f) f = f.
Proof. destruct f as [[i] e u n]. reflexivity. Qed.

Lemma assign_filter_ids_urls (used : list Z) (l : list filter) :
  map URL (assign_filter_ids used l) = map URL l.
Proof.
  revert used. induction l as [|f l IH]; intros used; simpl; [reflexivity|].
  rewrite URL_set_filter_ID, IH. reflexivity.
Qed.

Lemma dedup_filters_nodup (seen : list string) (l : list filter) :
  NoDup (map URL l) → (∀ u, u ∈ map URL l → u ∉ seen) →
  dedup_filters seen l = l.
Proof.
  revert seen. induction l as [|f l IH]; intros seen Hnd Hseen; simpl;
    [reflexivity|].
  simpl in Hnd. apply NoDup_cons in Hnd as [Hf Hnd].
  rewrite bool_decide_eq_false_2 by (apply Hseen; simpl; left).
  f_equal. apply IH; [exact Hnd|].
  intros u Hu Hin. apply elem_of_cons in Hin as [->|Hin]; [tauto|].
  apply (Hseen u); [simpl; right; exact Hu|exact Hin].
Qed.

Lemma assign_filter_ids_unique (used : list Z) (l : list filter) :
  Forall (λ f, 0 < filter_ID f) l → NoDup (map filter_ID l) →
  (∀ i, i ∈ map filter_ID l → i ∉ used) →
  assign_filter_ids used l = l.
Proof.
  revert used. induction l as [|f l IH]; intros used Hpos Hnd Hused; simpl;
    [reflexivity|].
  apply Forall_cons in Hpos as [Hf Hpos].
  simpl in Hnd. apply NoDup_cons in Hnd as [Hfresh Hnd].
  rewrite bool_decide_eq_true_2
    by (split; [exact Hf|apply Hused; simpl; left]).
  rewrite set_filter_ID_same. f_equal. apply IH; [exact Hpos|exact Hnd|].
  intros i Hi Hin. apply elem_of_app in Hin as [Hin|Hin].
  - apply (Hused i); [simpl; right; exact Hi|exact Hin].
  - apply list_elem_of_singleton in Hin as ->. tauto.
Qed.

(** Normalizing twice is normalizing once. *)
Lemma normalizer_idempotent (l : list filter) :
  let once := assign_filter_ids [] (dedup_filters [] l) in
  assign_filter_ids [] (dedup_filters [] once) = once.
Proof.
  intros once.
  destruct (assign_filter_ids_fresh [] (dedup_filters [] l))
    as (Hpos & Hnd & _).
  destruct (dedup_filters_urls [] l) as [Hurls _].
  assert (E : dedup_filters [] once = once).
  { apply dedup_filters_nodup.
    - unfold once. rewrite assign_filter_ids_urls. exact Hurls.
    - intros u _ Hin. inversion Hin. }
  rewrite E. apply assign_filter_ids_unique; [exact Hpos|exact Hnd|].
  intros i _ Hin. inversion Hin.
Qed.

(** What the normalizer makes of the filters [loaded]: [fs]. *)
Definition normalized (loaded fs : list filter) : Prop :=
  let kept := dedup_filters [] loaded in
  NoDup (map filter_ID fs)
  ∧ Forall (λ f, 0 < filter_ID f) fs
  ∧ sublist kept loaded
  ∧ NoDup (map URL kept)
  ∧ (∀ f, f ∈ loaded → URL f ∈ map URL kept)
  ∧ (∀ f, f ∈ kept → first_occurrence loaded f)
  ∧ Forall2 (λ f g, g = set_filter_ID (filter_ID g) f) kept fs
  ∧ (∀ k1 f k2 o1 g o2,
       kept = k1 ++ f :: k2 → fs = o1 ++ g :: o2 → length k1 = length o1 →
       filter_ID g =
         if bool_decide (0 < filter_ID f ∧ filter_ID f ∉ map filter_ID o1)
         then filter_ID f else next_free (map filter_ID o1)).

(** C9: after [parseConfig] has unmarshalled the bytes of the file without
    error, the filters of the configuration are those that were loaded, with
    every entry that repeats the URL of an earlier one removed; their
    identifiers are pairwise distinct and strictly positive; an entry keeps
    its identifier when that is strictly positive and differs from those of
    the entries before it, and is otherwise given the next free one (1 when
    there is none before, else one more than the largest before). *)
Theorem parseConfig_normalizes_filters (w : world) (data : list Byte.byte) :
  w_files w !! config_path (w_config w) = Some (Regular data) →
  snd (yaml_Unmarshal configuration_codec data (w_config w)) = None →
  ∃ w', parseConfig w = (None, w')
        ∧ normalized
            (Filters (fst (yaml_Unmarshal configuration_codec data (w_config w))))
            (Filters (w_config w')).
Proof.
  intros Hfile Hload.
  rewrite (parseConfig_present w data Hfile).
  destruct (yaml_Unmarshal configuration_codec data (w_config w))
    as [c' err]. simpl in Hload. subst err.
  eexists. split; [reflexivity|].
  cbn [snd put_config deduplicateFilters updateUniqueFilterID bind
       record_call get_config w_config fst].
  rewrite !Filters_set. unfold normalized.
  destruct (assign_filter_ids_fresh [] (dedup_filters [] (Filters c')))
    as (Hpos & Hnd & _).
  destruct (dedup_filters_urls [] (Filters c')) as [Hurls _].
  split; [exact Hnd|]. split; [exact Hpos|].
  split; [apply dedup_filters_sublist|]. split; [exact Hurls|].
  split.
  { intros f Hf. destruct (dedup_filters_covers [] (Filters c') f Hf) as [Hs|Hk].
    - inversion Hs.
    - exact Hk. }
  split.
  { intros f Hf. apply (dedup_filters_first [] (Filters c') f Hf). }
  split; [apply assign_filter_ids_entries|].
  intros k1 f k2 o1 g o2 Hk Ho Hlen.
  apply (assign_filter_ids_rule [] _ k1 k2 o1 o2 f g Hk Ho Hlen).
Qed.

End Properties.

(** ** The theorems at concrete inputs *)

(** C1 on a file that holds an unclosed flow mapping. *)
Lemma parseConfig_malformed_witness :
  ∃ w', @parseConfig sample.collaborators
          (sample.state false (sample.holding sample.malformed))
        = (Some (Errorf "yaml: did not find expected node content"), w')
        ∧ w_config w' = sample.store false
        ∧ w_files w' = sample.holding sample.malformed
        ∧ new_calls (sample.state false (sample.holding sample.malformed)) w'
          = [].
Proof.
  exact (@parseConfig_malformed_keeps_config sample.collaborators
           (sample.state false (sample.holding sample.malformed))
           sample.malformed
           (Errorf "yaml: did not find expected node content")
           ltac:(vm_compute; reflexivity) ltac:(vm_compute; reflexivity)).
Defined.

(** C6 on an empty file system. *)
Lemma load_absent_witness :
  @readConfigFile sample.collaborators (sample.state true sample.no_files)
  = ((None, None), sample.state true sample.no_files)
  ∧ ∃ w', @parseConfig sample.collaborators (sample.state true sample.no_files) = (None, w')
          ∧ w_config w' = sample.store true
          ∧ BindPort (w_config w') = 3000
          ∧ dns_Port (DNS (w_config w')) = 53
          ∧ UpstreamDNS (DNS (w_config w'))
            = ["tls://1.1.1.1"; "tls://1.0.0.1"].
Proof.
  exact (@load_absent_keeps_defaults sample.collaborators
           (sample.state true sample.no_files) "AdGuardHome.yaml" "/opt/adguardhome" true
           eq_refl ltac:(vm_compute; reflexivity)).
Defined.

(** C7 on the built-in configuration with the first-run flag set. *)
Lemma write_first_run_witness :
  ∃ w', @write sample.collaborators (sample.state true sample.no_files) = (None, w')
        ∧ w_files w' = sample.no_files
        ∧ new_calls (sample.state true sample.no_files) w' = []
        ∧ w_config w' = sample.store true.
Proof.
  exact (@write_first_run_no_write sample.collaborators
           (sample.state true sample.no_files) eq_refl).
Defined.

(** C10 on an empty file system. *)
Lemma parseConfig_absent_witness :
  ∃ w', @parseConfig sample.collaborators (sample.state true sample.no_files) = (None, w')
        ∧ new_calls (sample.state true sample.no_files) w' = []
        ∧ w_config w' = sample.store true
        ∧ (∀ name dir first,
             sample.store true = @started sample.collaborators name dir first →
             Filters (w_config w') = Filters (@config sample.collaborators)).
Proof.
  exact (@parseConfig_absent_skips_normalizer sample.collaborators
           (sample.state true sample.no_files) ltac:(vm_compute; reflexivity)).
Defined.

(** C5 on the built-in configuration, read back into the zero one. *)
Lemma marshal_unmarshal_roundtrip_witness :
  ∃ c', @yaml_Unmarshal sample.collaborators _ configuration_codec
          (fst (@yaml_Marshal sample.collaborators _ configuration_codec
                  (sample.store false)))
          (@configuration_zero sample.collaborators)
        = (c', None)
        ∧ persisted c' = persisted (sample.store false)
        ∧ not_persisted c'
          = not_persisted (@configuration_zero sample.collaborators).
Proof.
  refine (@marshal_unmarshal_roundtrip sample.collaborators
            (sample.store false) (@configuration_zero sample.collaborators)
            (fst (@yaml_Marshal sample.collaborators _ configuration_codec
                    (sample.store false)))
            _ ltac:(vm_compute; reflexivity) ltac:(vm_compute; reflexivity)
            ltac:(vm_compute; reflexivity)).
  unfold valid_configuration, valid_dnsConfig, valid_tlsConfig, is_int,
    int_min, int_max, filter_ID; simpl.
  repeat split; try lia. repeat constructor; simpl; lia.
Defined.

(** C8 on a file that holds an unclosed flow mapping: the default settings. *)
Lemma getLogSettings_on_failure_witness :
  fst (@getLogSettings sample.collaborators
         (sample.state false (sample.holding sample.malformed)))
  = logSettings_zero.
Proof.
  destruct (@getLogSettings_on_failure sample.collaborators
              (sample.state false (sample.holding sample.malformed)))
    as (l & w' & Hrun & _ & _ & _ & Hdefault & _).
  - vm_compute. discriminate.
  - rewrite Hrun. simpl. apply Hdefault.
    intros data n Hfile. vm_compute in Hfile.
    injection Hfile as <-. vm_compute. discriminate.
Defined.

(** C8 as stated fails on a document whose [verbose] is not a boolean:
    unmarshalling returns a type error, and the settings returned carry the
    [log_file] of the document, not the default one. *)
Lemma getLogSettings_mistyped_not_default :
  snd (@yaml_Unmarshal sample.collaborators _ logSettings_codec
         sample.mistyped logSettings_zero)
  = Some (TypeError [TError "!!str" "bool"])
  ∧ fst (@getLogSettings sample.collaborators
           (sample.state false (sample.holding sample.mistyped)))
    = {| LogFile := "syslog"; Verbose := false |}
  ∧ fst (@getLogSettings sample.collaborators
           (sample.state false (sample.holding sample.mistyped)))
    ≠ logSettings_zero.
Proof.
  split; [vm_compute; reflexivity|].
  split; [vm_compute; reflexivity|].
  vm_compute. discriminate.
Qed.

(** C9 on a file that lists four filters. *)
Lemma parseConfig_normalizes_filters_witness :
  ∃ w', @parseConfig sample.collaborators
          (sample.state false (sample.holding sample.four_filters))
        = (None, w')
        ∧ normalized
            (Filters
               (fst (@yaml_Unmarshal sample.collaborators _ configuration_codec
                       sample.four_filters
                       (w_config
                          (sample.state false
                             (sample.holding sample.four_filters))))))
            (Filters (w_config w')).
Proof.
  exact (@parseConfig_normalizes_filters sample.collaborators
           (sample.state false (sample.holding sample.four_filters))
           sample.four_filters
           ltac:(vm_compute; reflexivity) ltac:(vm_compute; reflexivity)).
Defined.

(** C2 as stated fails when the configuration file cannot be written:
    [write] returns the error, [writeAllConfigs] returns it too, and the
    only call made is the failed write; the user filter is not saved. *)
Lemma writeAllConfigs_skips_save_after_failed_write :
  fst (@write sample.collaborators (sample.state false sample.denied))
  = Some (Errorf "permission denied")
  ∧ fst (@writeAllConfigs sample.collaborators
           (sample.state false sample.denied))
    = Some (Errorf "permission denied")
  ∧ ∃ text,
      w_calls (snd (@writeAllConfigs sample.collaborators
                      (sample.state false sample.denied)))
      = [call_safeWriteFile sample.config_file text].
Proof.
  split; [vm_compute; reflexivity|].
  split; [vm_compute; reflexivity|].
  eexists. vm_compute. reflexivity.
Qed.

(** The cases the specification lists as tests. Four loaded filters without
    identifiers, two of them with the same URL: three are left, numbered 1,
    2, 3 in the order they were first seen. *)
Example four_filters_two_with_one_url :
  let f (url name : string) :=
    {| Filter := {| ID := 0 |}; filter_Enabled := true;
       URL := url; Name := name |} in
  let loaded := [f "a.txt" "A"; f "b.txt" "B"; f "a.txt" "A again"; f "c.txt" "C"] in
  let fs := assign_filter_ids [] (dedup_filters [] loaded) in
  map Name fs = ["A"; "B"; "C"] ∧ map filter_ID fs = [1; 2; 3].
Proof. split; reflexivity. Qed.

(** The four filters of [sample.four_filters]: the repeated URL goes, the
    first entry is given 1, the second keeps 7, the last collides with it
    and is given 8. *)
Example four_filters_normalized :
  let fs :=
    Filters (w_config (snd (@parseConfig sample.collaborators
               (sample.state false (sample.holding sample.four_filters))))) in
  map URL fs = ["alpha"; "beta"; "gamma"] ∧ map filter_ID fs = [1; 7; 8].
Proof. split; vm_compute; reflexivity. Qed.

(** A file that sets the bind port only: the port is overlaid on the
    built-in configuration, everything else stays. *)
Example bind_port_only :
  let c := fst (@yaml_Unmarshal sample.collaborators _ configuration_codec
                  (sample.text "{bind_port: 8080}") (sample.store false)) in
  BindPort c = 8080
  ∧ BindHost c = "0.0.0.0"
  ∧ DNS c = DNS (sample.store false)
  ∧ map filter_ID (Filters c) = [1; 2; 3; 4].
Proof. repeat split; vm_compute; reflexivity. Qed.

(** A document with a value of the wrong type is decoded around it: the
    error is returned and the fields that did decode are overwritten. *)
Example type_mismatch_overwrites :
  let r := @yaml_Unmarshal sample.collaborators _ configuration_codec
             (sample.text "{bind_port: 8080, language: [en]}")
             (sample.store false) in
  snd r = Some (TypeError [TError "!!seq" "string"])
  ∧ BindPort (fst r) = 8080.
Proof. split; vm_compute; reflexivity. Qed.

(** ** Further properties of the procedures *)

Section Further.

Context `{Collaborators}.

(** The calls of the normalizer, as [parseConfig] makes them. *)
Definition normalizer_calls : list call :=
  [call_deduplicateFilters; call_updateUniqueFilterID].

(** What the two normalizer calls leave in [Filters]. *)
Definition normalize_filters (l : list filter) : list filter :=
  assign_filter_ids [] (dedup_filters [] l).

(** [parseConfig] on a file that cannot be read. *)
Lemma parseConfig_unreadable (w : world) (msg : string) :
  w_files w !! config_path (w_config w) = Some (Unreadable msg) →
  parseConfig w =
  (Some (Errorf msg),
   {| w_config := w_config w; w_files := w_files w;
      w_log := w_log w
               ++ [Printf "Reading config file: %s"
                     [arg_string (config_path (w_config w))];
                   Printf "Couldn't read config file: %s"
                     [arg_error (Errorf msg)]];
      w_calls := w_calls w |}).
Proof.
  intros Hfile. unfold parseConfig, bind.
  rewrite getConfigFilename_run. simpl.
  rewrite readConfigFile_run. simpl. rewrite Hfile. simpl.
  unfold ret. rewrite <- app_assoc. reflexivity.
Qed.

(** X1: when the configuration file exists and cannot be read,
    [parseConfig] returns the error of [ioutil.ReadFile]; the configuration
    and the files are untouched, nothing is called, and the error is
    logged after the line that announces the reading. *)
Theorem parseConfig_unreadable_file (w : world) (msg : string) :
  w_files w !! config_path (w_config w) = Some (Unreadable msg) →
  ∃ w', parseConfig w = (Some (Errorf msg), w')
        ∧ w_config w' = w_config w
        ∧ w_files w' = w_files w
        ∧ new_calls w w' = []
        ∧ w_log w' = w_log w
            ++ [Printf "Reading config file: %s"
                  [arg_string (config_path (w_config w))];
                Printf "Couldn't read config file: %s"
                  [arg_error (Errorf msg)]].
Proof.
  intros Hfile. rewrite (parseConfig_unreadable w msg Hfile).
  eexists. split; [reflexivity|]. simpl.
  split; [reflexivity|]. split; [reflexivity|].
  split; [apply new_calls_same|]; reflexivity.
Qed.

(** X2: when the bytes parse and their decoding meets a type mismatch,
    [parseConfig] returns the [TypeError] with every mismatch met, does not
    call the normalizer, and does not roll back: the configuration is left
    as the decoding left it, fields decoded before and after the mismatch
    overwritten. *)
Theorem parseConfig_type_error_no_rollback
    (w : world) (data : list Byte.byte) (n : node) :
  w_files w !! config_path (w_config w) = Some (Regular data) →
  yaml_parse data = inr (Some n) →
  d_terrors (unmarshal configuration_codec n (w_config w)) ≠ [] →
  ∃ w', parseConfig w
        = (Some (TypeError
                   (d_terrors (unmarshal configuration_codec n (w_config w)))),
           w')
        ∧ w_config w' = d_value (unmarshal configuration_codec n (w_config w))
        ∧ w_files w' = w_files w
        ∧ new_calls w w' = [].
Proof.
  intros Hfile Hparse Herrs.
  rewrite (parseConfig_present w data Hfile).
  unfold yaml_Unmarshal. rewrite Hparse.
  destruct (d_terrors _) as [|te tes] eqn:E; [congruence|].
  eexists. split; [reflexivity|]. simpl.
  split; [reflexivity|]. split; [reflexivity|].
  apply new_calls_same. reflexivity.
Qed.

(** X3: loading never writes. Whatever the state, [getLogSettings] changes
    neither the configuration nor the files and calls nothing, and
    [parseConfig] leaves the files as they are and calls nothing but the
    normalizer. *)
Theorem loading_never_writes (w : world) :
  (w_config (snd (getLogSettings w)) = w_config w
   ∧ w_files (snd (getLogSettings w)) = w_files w
   ∧ new_calls w (snd (getLogSettings w)) = [])
  ∧ w_files (snd (parseConfig w)) = w_files w
  ∧ (new_calls w (snd (parseConfig w)) = []
     ∨ new_calls w (snd (parseConfig w)) = normalizer_calls).
Proof.
  split; [|split].
  - rewrite getLogSettings_run.
    destruct (w_files w !! _) as [[data|msg]|];
      try (repeat split; apply new_calls_same; reflexivity).
    destruct (yaml_Unmarshal _ _ _) as [l [e|]]; simpl;
      repeat split; apply new_calls_same; reflexivity.
  - destruct (w_files w !! config_path (w_config w)) as [[data|msg]|] eqn:Hfile.
    + rewrite (parseConfig_present w data Hfile).
      destruct (yaml_Unmarshal _ _ _) as [c' [e|]]; reflexivity.
    + rewrite (parseConfig_unreadable w msg Hfile). reflexivity.
    + rewrite (parseConfig_absent w Hfile). reflexivity.
  - rewrite parseConfig_calls.
    destruct (w_files w !! _) as [[data|msg]|]; try (left; reflexivity).
    destruct (snd _); [left|right]; reflexivity.
Qed.

(** [write] when the first-run flag is clear, the marshalling succeeds and
    [safeWriteFile] returns no error. *)
Lemma write_stored (w : world) (text : list Byte.byte)
    (files : gmap string file) :
  firstRun (w_config w) = false →
  yaml_emit (encode configuration_codec (w_config w)) = inr text →
  safeWriteFile_files (config_path (w_config w)) text (w_files w)
  = (files, None) →
  fst (write w) = None ∧ w_files (snd (write w)) = files.
Proof.
  intros Hfirst Hemit Hwrite.
  unfold write, bind, get_config. simpl. rewrite Hfirst. simpl.
  rewrite getConfigFilename_run. simpl.
  unfold yaml_Marshal. rewrite Hemit. simpl.
  unfold safeWriteFile, bind, record_call. simpl.
  rewrite Hwrite. split; reflexivity.
Qed.

(** X4: [write] never changes the configuration. It calls [safeWriteFile]
    at most once: exactly when the first-run flag is clear and the
    marshalling succeeds, with the resolved path and the marshalled bytes,
    and then returns what [safeWriteFile] returns. When the marshalling
    fails, that error is returned and the files are untouched. *)
Theorem write_effects (w : world) :
  let c := w_config w in
  let '(err, w') := write w in
  w_config w' = c
  ∧ if firstRun c then err = None ∧ new_calls w w' = [] ∧ w_files w' = w_files w
    else match yaml_emit (encode configuration_codec c) with
         | inl e => err = Some e ∧ new_calls w w' = [] ∧ w_files w' = w_files w
         | inr text =>
             new_calls w w' = [call_safeWriteFile (config_path c) text]
             ∧ (w_files w', err)
               = safeWriteFile_files (config_path c) text (w_files w)
         end.
Proof.
  unfold write, bind, get_config. simpl.
  destruct (firstRun (w_config w)) eqn:Hfirst; simpl.
  - split; [reflexivity|]. split; [reflexivity|].
    split; [apply new_calls_same|]; reflexivity.
  - rewrite getConfigFilename_run. simpl.
    unfold yaml_Marshal.
    destruct (yaml_emit _) as [e|text]; simpl.
    + split; [reflexivity|]. split; [reflexivity|].
      split; [apply new_calls_same|]; reflexivity.
    + unfold safeWriteFile, bind, record_call. simpl.
      destruct (safeWriteFile_files _ _ _) as [files [e|]] eqn:Hwrite; simpl;
        (split; [reflexivity|]; split;
         [apply new_calls_app; reflexivity|reflexivity]).
Qed.

(** X5: the first-run flag holds back the configuration file only. With
    the flag set, [writeAllConfigs] writes no configuration and still saves
    the user filter: that is its one call, and its outcome is returned. *)
Theorem writeAllConfigs_first_run_saves_user_filter (w : world) :
  firstRun (w_config w) = true →
  ∃ w', writeAllConfigs w
        = (snd (userFilter_save_files (UserRules (w_config w)) (w_files w)),
           w')
        ∧ new_calls w w' = [call_userFilter_save]
        ∧ w_files w'
          = fst (userFilter_save_files (UserRules (w_config w)) (w_files w))
        ∧ w_config w' = w_config w.
Proof.
  intros Hfirst.
  unfold writeAllConfigs, write, bind, get_config. simpl.
  rewrite Hfirst. simpl.
  unfold userFilter_save, bind, record_call. simpl.
  destruct (userFilter_save_files _ _) as [files [e|]]; simpl;
    (eexists; split; [reflexivity|]; simpl;
     split; [apply new_calls_app|]; repeat split).
Qed.

(** X6: a file that is there and holds an empty document is not an absent
    file: [parseConfig] returns no error and decodes nothing, and the
    normalizer is still run over the filters the configuration already
    has; no other field changes. *)
Theorem parseConfig_empty_document (w : world) (data : list Byte.byte) :
  w_files w !! config_path (w_config w) = Some (Regular data) →
  yaml_parse data = inr None →
  ∃ w', parseConfig w = (None, w')
        ∧ w_config w'
          = set_Filters (normalize_filters (Filters (w_config w))) (w_config w)
        ∧ new_calls w w' = normalizer_calls.
Proof.
  intros Hfile Hparse.
  rewrite (parseConfig_present w data Hfile).
  unfold yaml_Unmarshal. rewrite Hparse.
  eexists. split; [reflexivity|].
  split.
  - cbn [snd put_config deduplicateFilters updateUniqueFilterID bind
         record_call get_config w_config fst].
    rewrite Filters_set. destruct (w_config w). reflexivity.
  - apply new_calls_app. simpl. rewrite <- app_assoc. reflexivity.
Qed.


Lemma lookup_field_Some {S} (fs : list (field S)) (k : string) (f : field S) :
  lookup_field fs k = Some f → f ∈ fs ∧ f_key f = k.
Proof.
  unfold lookup_field. intros Hfind. apply find_some in Hfind as [Hin Hkey].
  split; [apply list_elem_of_In, Hin|]. apply String.eqb_eq, Hkey.
Qed.

(** A property of the target that every field decoder met on the way
    keeps is kept by [mappingStruct]. *)
Lemma mappingStruct_invariant {S} (fs : list (field S)) (P : S → Prop)
    (entries : list (string * node)) (out : S) :
  (∀ k v f s, (k, v) ∈ entries → lookup_field fs k = Some f →
              P s → P (fst (f_decode f v s))) →
  P out → P (fst (mappingStruct fs entries out)).
Proof.
  revert out. induction entries as [|[k v] entries IH]; intros out Hstep Hout;
    simpl; [exact Hout|].
  assert (Hrest : ∀ k v f s, (k, v) ∈ entries → lookup_field fs k = Some f →
                             P s → P (fst (f_decode f v s)))
    by (intros k' v' f s Hin; apply Hstep; right; exact Hin).
  destruct (lookup_field fs k) as [f|] eqn:Hf.
  - specialize (Hstep k v f out (list_elem_of_here _ _) Hf Hout).
    destruct (f_decode f v out) as [out1 es1]. simpl in Hstep.
    specialize (IH out1 Hrest Hstep).
    destruct (mappingStruct fs entries out1) as [out2 es2]. exact IH.
  - apply IH; assumption.
Qed.

Lemma configuration_fields_cases (f : field configuration) :
  f ∈ configuration_fields →
  f = fld "bind_host" BindHost set_BindHost string_codec
  ∨ f = fld "bind_port" BindPort set_BindPort int_codec
  ∨ f = fld "auth_name" AuthName set_AuthName string_codec
  ∨ f = fld "auth_pass" AuthPass set_AuthPass string_codec
  ∨ f = fld "language" Language set_Language string_codec
  ∨ f = fld "dns" DNS set_DNS dnsConfig_codec
  ∨ f = fld "tls" TLS set_TLS tlsConfig_codec
  ∨ f = fld "filters" Filters set_Filters (slice_codec filter_codec)
  ∨ f = fld "user_rules" UserRules set_UserRules (slice_codec string_codec)
  ∨ f = fld "dhcp" DHCP set_DHCP ServerConfig_codec
  ∨ f ∈ inline log_settings set_log_settings logSettings_fields
  ∨ f = fld "schema_version" SchemaVersion set_SchemaVersion int_codec.
Proof.
  unfold configuration_fields. intros Hf.
  apply elem_of_app in Hf as [Hf|Hf].
  - repeat (apply elem_of_cons in Hf as [->|Hf]; [tauto|]). inversion Hf.
  - apply elem_of_app in Hf as [Hf|Hf]; [tauto|].
    apply list_elem_of_singleton in Hf as ->. tauto.
Qed.

(** The fields of [c'] are those of [c] wherever the key of the field is
    not among [ks]; the unexported fields are those of [c] anyway. *)
Definition kept_where_absent (ks : list string) (c c' : configuration) : Prop :=
  (ourConfigFilename c' = ourConfigFilename c
   ∧ ourWorkingDir c' = ourWorkingDir c
   ∧ firstRun c' = firstRun c)
  ∧ ("bind_host" ∉ ks → BindHost c' = BindHost c)
  ∧ ("bind_port" ∉ ks → BindPort c' = BindPort c)
  ∧ ("auth_name" ∉ ks → AuthName c' = AuthName c)
  ∧ ("auth_pass" ∉ ks → AuthPass c' = AuthPass c)
  ∧ ("language" ∉ ks → Language c' = Language c)
  ∧ ("dns" ∉ ks → DNS c' = DNS c)
  ∧ ("tls" ∉ ks → TLS c' = TLS c)
  ∧ ("user_rules" ∉ ks → UserRules c' = UserRules c)
  ∧ ("dhcp" ∉ ks → DHCP c' = DHCP c)
  ∧ ("log_file" ∉ ks → LogFile (log_settings c') = LogFile (log_settings c))
  ∧ ("verbose" ∉ ks → Verbose (log_settings c') = Verbose (log_settings c))
  ∧ ("schema_version" ∉ ks → SchemaVersion c' = SchemaVersion c).

Ltac field_kept :=
  intros k v f s Hin Hf Hs;
  apply lookup_field_Some in Hf as [Hf Hk];
  apply configuration_fields_cases in Hf;
  destruct Hf as [Hf|[Hf|[Hf|[Hf|[Hf|[Hf|[Hf|[Hf|[Hf|[Hf|[Hf|Hf]]]]]]]]]]];
  try (cbn [inline logSettings_fields map] in Hf;
       apply elem_of_cons in Hf as [Hf|Hf];
       [|apply list_elem_of_singleton in Hf]);
  rewrite Hf in Hk |- *; clear Hf; cbn -[unmarshal] in Hk |- *;
  first
    [ destruct s as [? ? ? ? ? ? ? ? ? ? ? ? ? [? ?] ?]; exact Hs
    | exfalso;
      match goal with
      | Habsent : _ ∉ _ |- _ =>
          apply Habsent; rewrite Hk; apply list_elem_of_fmap;
          exists (k, v); split; [reflexivity|exact Hin]
      end ].

Lemma mappingStruct_keeps_absent
    (entries : list (string * node)) (c : configuration) :
  kept_where_absent (map fst entries) c
    (fst (mappingStruct configuration_fields entries c))
  ∧ ("filters" ∉ map fst entries →
     Filters (fst (mappingStruct configuration_fields entries c)) = Filters c).
Proof.
  unfold kept_where_absent.
  pose proof (mappingStruct_invariant configuration_fields) as Hinv.
  split; [split; [split; [|split]|]|].
  - apply (Hinv (λ s, ourConfigFilename s = ourConfigFilename c));
      [field_kept|reflexivity].
  - apply (Hinv (λ s, ourWorkingDir s = ourWorkingDir c));
      [field_kept|reflexivity].
  - apply (Hinv (λ s, firstRun s = firstRun c)); [field_kept|reflexivity].
  - split; [|split; [|split; [|split; [|split; [|split; [|split;
      [|split; [|split; [|split; [|split]]]]]]]]]]; intros Habsent.
    + apply (Hinv (λ s, BindHost s = BindHost c)); [field_kept|reflexivity].
    + apply (Hinv (λ s, BindPort s = BindPort c)); [field_kept|reflexivity].
    + apply (Hinv (λ s, AuthName s = AuthName c)); [field_kept|reflexivity].
    + apply (Hinv (λ s, AuthPass s = AuthPass c)); [field_kept|reflexivity].
    + apply (Hinv (λ s, Language s = Language c)); [field_kept|reflexivity].
    + apply (Hinv (λ s, DNS s = DNS c)); [field_kept|reflexivity].
    + apply (Hinv (λ s, TLS s = TLS c)); [field_kept|reflexivity].
    + apply (Hinv (λ s, UserRules s = UserRules c)); [field_kept|reflexivity].
    + apply (Hinv (λ s, DHCP s = DHCP c)); [field_kept|reflexivity].
    + apply (Hinv (λ s, LogFile (log_settings s) = LogFile (log_settings c)));
        [field_kept|reflexivity].
    + apply (Hinv (λ s, Verbose (log_settings s) = Verbose (log_settings c)));
        [field_kept|reflexivity].
    + apply (Hinv (λ s, SchemaVersion s = SchemaVersion c));
        [field_kept|reflexivity].
  - intros Habsent.
    apply (Hinv (λ s, Filters s = Filters c)); [field_kept|reflexivity].
Qed.


Lemma log_settings_set (l : logSettings) (c : configuration) :
  log_settings (set_log_settings l c) = l.
Proof. destruct c. reflexivity. Qed.





Lemma logSettings_of_document (c : configuration) (l : logSettings) :
  unmarshal logSettings_codec (encode configuration_codec c) l
  = good (log_settings c).
Proof. destruct c as [? ? ? ? ? ? ? ? ? ? ? ? ? [? ?] ?]. reflexivity. Qed.

(** X8: the early extraction reads a persisted configuration through its
    other keys. On a file whose bytes parse to the document of a
    configuration [c], [getLogSettings] returns the log settings of [c],
    logs nothing and changes nothing. *)
Theorem getLogSettings_of_persisted
    (w : world) (c : configuration) (text : list Byte.byte) :
  w_files w !! config_path (w_config w) = Some (Regular text) →
  yaml_parse text = inr (Some (encode configuration_codec c)) →
  getLogSettings w = (log_settings c, w).
Proof.
  intros Hfile Hparse. rewrite getLogSettings_run, Hfile.
  unfold yaml_Unmarshal. rewrite Hparse, logSettings_of_document.
  reflexivity.
Qed.

Lemma mappingStruct_skips_unknown {S} (fs : list (field S)) (k : string)
    (entries : list (string * node)) (out : S) :
  lookup_field fs k = None →
  mappingStruct fs (base.filter (λ e, e.1 ≠ k) entries) out
  = mappingStruct fs entries out.
Proof.
  intros Hk. revert out.
  induction entries as [|[k' v] entries IH]; intros out; [reflexivity|].
  rewrite filter_cons. simpl. case_decide as Hne.
  - simpl. destruct (lookup_field fs k') as [f|]; [|apply IH].
    destruct (f_decode f v out) as [out1 es1]. rewrite IH. reflexivity.
  - simpl in Hne. subst k'. rewrite Hk. apply IH.
Qed.

(** X9: in the [tls] section the key [enabled] is not a key of the
    struct: its entries are skipped when a document is decoded, so they do
    not set the flag, and no error is reported for them; the key that sets
    the flag is [enaled]. *)
Theorem tls_enabled_key_is_ignored
    (entries : list (string * node)) (t : tlsConfig) :
  unmarshal tlsConfig_codec (NMap (base.filter (λ e, e.1 ≠ "enabled") entries)) t
  = unmarshal tlsConfig_codec (NMap entries) t
  ∧ (∀ v, unmarshal tlsConfig_codec (NMap [("enabled", v)]) t = good t)
  ∧ (∀ b text,
       Enabled (tls_settings
                  (d_value (unmarshal tlsConfig_codec
                              (NMap [("enaled", NScalar (RBool b) text)]) t)))
       = b).
Proof.
  split; [|split].
  - cbn [unmarshal decode tlsConfig_codec struct_codec].
    rewrite (mappingStruct_skips_unknown tlsConfig_fields "enabled");
      reflexivity.
  - intros v. reflexivity.
  - intros b text. destruct t as [[] ?]. reflexivity.
Qed.

Lemma persisted_overlay (c0 c : configuration) :
  persisted (overlay c0 c) = persisted c.
Proof. destruct c0 as [? ? ? ? ? ? ? ? ? [? ?]]. reflexivity. Qed.

Lemma not_persisted_overlay (c0 c : configuration) :
  not_persisted (overlay c0 c) = not_persisted c0.
Proof. destruct c0 as [? ? ? ? ? ? ? ? ? [? ?]]. reflexivity. Qed.

(** X10: the persisted document determines the persisted fields. Two
    configurations whose integers fit [int] and that marshal to the same
    document have the same persisted fields; they can differ in the fields
    that are not persisted only. *)
Theorem encode_determines_persisted (c1 c2 : configuration) :
  valid_configuration c1 → valid_configuration c2 →
  unmarshal ServerConfig_codec (encode ServerConfig_codec (DHCP c1)) (DHCP c1)
  = good (DHCP c1) →
  unmarshal ServerConfig_codec (encode ServerConfig_codec (DHCP c2)) (DHCP c1)
  = good (DHCP c2) →
  encode configuration_codec c1 = encode configuration_codec c2 →
  persisted c1 = persisted c2.
Proof.
  intros Hv1 Hv2 Hd1 Hd2 Henc.
  pose proof (configuration_roundtrip c1 c1 Hv1 Hd1) as R1.
  pose proof (configuration_roundtrip c2 c1 Hv2 Hd2) as R2.
  rewrite Henc, R2 in R1. apply (f_equal d_value) in R1. simpl in R1.
  transitivity (persisted (overlay c1 c1));
    [symmetry; apply persisted_overlay|].
  rewrite <- R1. apply persisted_overlay.
Qed.

Lemma kept_where_absent_set_Filters (ks : list string) (v : list filter)
    (c c' : configuration) :
  kept_where_absent ks c c' → kept_where_absent ks c (set_Filters v c').
Proof. destruct c'. exact id. Qed.

(** X11: a load merges the file over the configuration, it does not
    replace it. When the file holds a mapping, [parseConfig] leaves every
    field whose key the mapping lacks as it was, the unexported fields
    too, whether it returns an error or not; the filters, when their key is
    lacking, are those the configuration had, passed through the normalizer
    if the load succeeded. *)
Theorem parseConfig_merges_over_configuration
    (w : world) (data : list Byte.byte) (entries : list (string * node)) :
  w_files w !! config_path (w_config w) = Some (Regular data) →
  yaml_parse data = inr (Some (NMap entries)) →
  kept_where_absent (map fst entries) (w_config w)
    (w_config (snd (parseConfig w)))
  ∧ ("filters" ∉ map fst entries →
     Filters (w_config (snd (parseConfig w)))
     = match fst (parseConfig w) with
       | Some _ => Filters (w_config w)
       | None => normalize_filters (Filters (w_config w))
       end).
Proof.
  intros Hfile Hparse.
  rewrite (parseConfig_present w data Hfile).
  unfold yaml_Unmarshal. rewrite Hparse.
  cbn [unmarshal decode configuration_codec struct_codec].
  destruct (mappingStruct_keeps_absent entries (w_config w)) as [Hkept Hfilters].
  destruct (mappingStruct configuration_fields entries (w_config w))
    as [c' es]. simpl in Hkept, Hfilters. cbn [d_value d_terrors].
  destruct es as [|te tes]; simpl.
  - split.
    + rewrite Filters_set.
      do 2 apply kept_where_absent_set_Filters. exact Hkept.
    + intros Habsent. rewrite !Filters_set, (Hfilters Habsent). reflexivity.
  - split; [exact Hkept|exact Hfilters].
Qed.

(** Filters that the normalizer leaves alone: identifiers strictly
    positive and pairwise distinct, URLs pairwise distinct. *)
Definition normal_filters (l : list filter) : Prop :=
  Forall (λ f, 0 < filter_ID f) l
  ∧ NoDup (map filter_ID l)
  ∧ NoDup (map URL l).

Lemma normalize_filters_normal (l : list filter) :
  normal_filters l → normalize_filters l = l.
Proof.
  intros (Hpos & Hids & Hurls). unfold normalize_filters.
  rewrite dedup_filters_nodup;
    [|exact Hurls|intros u _ Hin; inversion Hin].
  apply assign_filter_ids_unique; [exact Hpos|exact Hids|].
  intros i _ Hin. inversion Hin.
Qed.

Lemma set_Filters_same (c : configuration) : set_Filters (Filters c) c = c.
Proof. destruct c. reflexivity. Qed.

Lemma Filters_overlay (c0 c : configuration) :
  Filters (overlay c0 c) = Filters c.
Proof. reflexivity. Qed.

(** X12: what [write] persists, a later [parseConfig] restores. Let [write]
    run on a configuration whose first-run flag is clear, whose integers fit
    [int] and whose filters are normal, with a [safeWriteFile] that stores
    the bytes. Then [write] returns no error, and [parseConfig], run by any
    process that resolves the same path and sees those files, returns no
    error and ends with every persisted field of the written
    configuration; its fields that are not persisted stay its own. *)
Theorem write_then_parseConfig_restores
    (w w0 : world) (text : list Byte.byte) :
  let c := w_config w in
  firstRun c = false →
  valid_configuration c →
  normal_filters (Filters c) →
  yaml_emit (encode configuration_codec c) = inr text →
  yaml_parse text = inr (Some (encode configuration_codec c)) →
  safeWriteFile_files (config_path c) text (w_files w)
  = (<[config_path c := Regular text]> (w_files w), None) →
  w_files w0 = w_files (snd (write w)) →
  config_path (w_config w0) = config_path c →
  unmarshal ServerConfig_codec (encode ServerConfig_codec (DHCP c))
    (DHCP (w_config w0))
  = good (DHCP c) →
  fst (write w) = None
  ∧ ∃ w2, parseConfig w0 = (None, w2)
          ∧ persisted (w_config w2) = persisted c
          ∧ not_persisted (w_config w2) = not_persisted (w_config w0).
Proof.
  intros c Hfirst Hvalid Hnormal Hemit Hparse Hwrite Hfiles Hpath Hdhcp.
  destruct (write_stored w text _ Hfirst Hemit Hwrite) as [Herr Hw1].
  split; [exact Herr|].
  assert (Hfile : w_files w0 !! config_path (w_config w0) = Some (Regular text)).
  { rewrite Hfiles, Hw1, Hpath. apply lookup_insert_eq. }
  rewrite (parseConfig_present w0 text Hfile).
  unfold yaml_Unmarshal. rewrite Hparse.
  rewrite (configuration_roundtrip c (w_config w0) Hvalid Hdhcp).
  cbn [d_value d_terrors good].
  eexists. split; [reflexivity|].
  cbn [snd put_config deduplicateFilters updateUniqueFilterID bind
       record_call get_config w_config fst].
  rewrite !Filters_set, Filters_overlay.
  fold (normalize_filters (Filters c)).
  rewrite (normalize_filters_normal _ Hnormal).
  assert (E : ∀ x, set_Filters (Filters c)
                     (set_Filters x (overlay (w_config w0) c))
                   = overlay (w_config w0) c) by reflexivity.
  rewrite E.
  split; [apply persisted_overlay|apply not_persisted_overlay].
Qed.
End Further.

(** ** The further properties at concrete inputs *)

Module more_samples.

(** The bind port, and a language that is a sequence. *)
Definition port_and_bad_language : list Byte.byte :=
  sample.text "{bind_port: 8080, language: [en]}".

Definition port_only : list Byte.byte := sample.text "{bind_port: 8080}".

Definition empty_file : list Byte.byte := sample.text "".

(** The built-in configuration, logging verbosely to syslog. *)
Definition logging_store : @configuration sample.collaborators :=
  set_log_settings {| LogFile := "syslog"; Verbose := true |}
    (sample.store false).

Definition persisted_text (c : @configuration sample.collaborators)
  : list Byte.byte :=
  fst (@yaml_Marshal sample.collaborators _ configuration_codec c).

(** A process that starts, in first-run mode, over the files that [write]
    left when run on the built-in configuration. *)
Definition restarted : @world sample.collaborators :=
  sample.state true
    (w_files (snd (@write sample.collaborators
                     (sample.state false sample.no_files)))).

End more_samples.

Lemma sample_store_valid (first : bool) :
  valid_configuration (sample.store first).
Proof.
  unfold valid_configuration, valid_dnsConfig, valid_tlsConfig, is_int,
    int_min, int_max, filter_ID; simpl.
  repeat split; try lia. repeat constructor; simpl; lia.
Qed.

Lemma sample_store_normal_filters (first : bool) :
  normal_filters (Filters (sample.store first)).
Proof.
  unfold normal_filters, filter_ID. simpl. split; [|split].
  - repeat constructor; simpl; lia.
  - repeat (apply NoDup_cons; split;
            [intros Hin;
             repeat (apply elem_of_cons in Hin as [Hin|Hin];
                     [discriminate Hin|]);
             inversion Hin|]).
    apply NoDup_nil_2.
  - repeat (apply NoDup_cons; split;
            [intros Hin;
             repeat (apply elem_of_cons in Hin as [Hin|Hin];
                     [discriminate Hin|]);
             inversion Hin|]).
    apply NoDup_nil_2.
Qed.

(** X1 on a configuration file that cannot be read. *)
Lemma parseConfig_unreadable_file_witness :
  ∃ w', @parseConfig sample.collaborators (sample.state false sample.denied)
        = (Some (Errorf "permission denied"), w')
        ∧ w_config w' = w_config (sample.state false sample.denied)
        ∧ w_files w' = w_files (sample.state false sample.denied)
        ∧ new_calls (sample.state false sample.denied) w' = []
        ∧ w_log w' = w_log (sample.state false sample.denied)
            ++ [Printf "Reading config file: %s"
                  [arg_string
                     (config_path
                        (w_config (sample.state false sample.denied)))];
                Printf "Couldn't read config file: %s"
                  [arg_error (Errorf "permission denied")]].
Proof.
  exact (@parseConfig_unreadable_file sample.collaborators
           (sample.state false sample.denied) "permission denied"
           ltac:(vm_compute; reflexivity)).
Defined.

(** X2 on a file that sets the bind port and gives a sequence for the
    language. *)
Lemma parseConfig_type_error_witness :
  let w := sample.state false (sample.holding more_samples.port_and_bad_language) in
  let n := NMap [("bind_port", NScalar (RInt 8080) "8080");
                 ("language", NSeq [NScalar RStr "en"])] in
  ∃ w', @parseConfig sample.collaborators w
        = (Some (TypeError
                   (d_terrors (unmarshal configuration_codec n (w_config w)))),
           w')
        ∧ w_config w' = d_value (unmarshal configuration_codec n (w_config w))
        ∧ w_files w' = w_files w
        ∧ new_calls w w' = [].
Proof.
  exact (@parseConfig_type_error_no_rollback sample.collaborators
           (sample.state false
              (sample.holding more_samples.port_and_bad_language))
           more_samples.port_and_bad_language
           (NMap [("bind_port", NScalar (RInt 8080) "8080");
                  ("language", NSeq [NScalar RStr "en"])])
           ltac:(vm_compute; reflexivity) ltac:(vm_compute; reflexivity)
           ltac:(vm_compute; discriminate)).
Defined.

(** X5 on the built-in configuration in first-run mode. *)
Lemma writeAllConfigs_first_run_witness :
  let w := sample.state true sample.no_files in
  ∃ w', @writeAllConfigs sample.collaborators w
        = (snd (@userFilter_save_files sample.collaborators (UserRules (w_config w)) (w_files w)),
           w')
        ∧ new_calls w w' = [call_userFilter_save]
        ∧ w_files w'
          = fst (@userFilter_save_files sample.collaborators (UserRules (w_config w)) (w_files w))
        ∧ w_config w' = w_config w.
Proof.
  exact (@writeAllConfigs_first_run_saves_user_filter sample.collaborators
           (sample.state true sample.no_files) eq_refl).
Defined.

(** X6 on a configuration file of no bytes. *)
Lemma parseConfig_empty_document_witness :
  let w := sample.state false (sample.holding more_samples.empty_file) in
  ∃ w', @parseConfig sample.collaborators w = (None, w')
        ∧ w_config w'
          = set_Filters (normalize_filters (Filters (w_config w))) (w_config w)
        ∧ new_calls w w' = normalizer_calls.
Proof.
  exact (@parseConfig_empty_document sample.collaborators
           (sample.state false (sample.holding more_samples.empty_file))
           more_samples.empty_file
           ltac:(vm_compute; reflexivity) ltac:(vm_compute; reflexivity)).
Defined.


(** X8 on the file that holds the persisted form of a configuration that
    logs verbosely to syslog, read by a process with the built-in
    configuration. *)
Lemma getLogSettings_of_persisted_witness :
  let w :=
    sample.state false
      (sample.holding
         (more_samples.persisted_text more_samples.logging_store)) in
  @getLogSettings sample.collaborators w
  = (log_settings more_samples.logging_store, w).
Proof.
  exact (@getLogSettings_of_persisted sample.collaborators
           (sample.state false
              (sample.holding
                 (more_samples.persisted_text more_samples.logging_store)))
           more_samples.logging_store
           (more_samples.persisted_text more_samples.logging_store)
           ltac:(vm_compute; reflexivity) ltac:(vm_compute; reflexivity)).
Defined.

(** X10 on the built-in configuration with and without the first-run
    flag: one document, the same persisted fields. *)
Lemma encode_determines_persisted_witness :
  persisted (sample.store false) = persisted (sample.store true).
Proof.
  exact (@encode_determines_persisted sample.collaborators
           (sample.store false) (sample.store true)
           (sample_store_valid false) (sample_store_valid true)
           ltac:(vm_compute; reflexivity) ltac:(vm_compute; reflexivity)
           eq_refl).
Defined.

(** X11 on a file that sets the bind port only. *)
Lemma parseConfig_merges_witness :
  let w := sample.state false (sample.holding more_samples.port_only) in
  kept_where_absent ["bind_port"] (w_config w)
    (w_config (snd (@parseConfig sample.collaborators w)))
  ∧ ("filters" ∉ ["bind_port"] →
     Filters (w_config (snd (@parseConfig sample.collaborators w)))
     = match fst (@parseConfig sample.collaborators w) with
       | Some _ => Filters (w_config w)
       | None => normalize_filters (Filters (w_config w))
       end).
Proof.
  exact (@parseConfig_merges_over_configuration sample.collaborators
           (sample.state false (sample.holding more_samples.port_only))
           more_samples.port_only
           [("bind_port", NScalar (RInt 8080) "8080")]
           ltac:(vm_compute; reflexivity) ltac:(vm_compute; reflexivity)).
Defined.

(** X12: the built-in configuration is written, and read back by a process
    that starts in first-run mode over the files left. *)
Lemma write_then_parseConfig_witness :
  let w := sample.state false sample.no_files in
  fst (@write sample.collaborators w) = None
  ∧ ∃ w2, @parseConfig sample.collaborators more_samples.restarted = (None, w2)
          ∧ persisted (w_config w2) = persisted (w_config w)
          ∧ not_persisted (w_config w2)
            = not_persisted (w_config more_samples.restarted).
Proof.
  exact (@write_then_parseConfig_restores sample.collaborators
           (sample.state false sample.no_files) more_samples.restarted
           (more_samples.persisted_text (sample.store false))
           eq_refl (sample_store_valid false)
           (sample_store_normal_filters false)
           ltac:(vm_compute; reflexivity) ltac:(vm_compute; reflexivity)
           ltac:(vm_compute; reflexivity) eq_refl
           ltac:(vm_compute; reflexivity) ltac:(vm_compute; reflexivity)).
Defined.
